(** * lseed: the DNS seed's orchestrator and chain pollers (lseed.go)

    A shallow embedding of [lseed.go]: flag-driven start-up ([main]),
    the lnd client bootstrap ([initLightningClient]), the HTTP graph
    fetch of the pkt chain ([pktGetGraph]) and the two polling loops
    ([poller], [pktPoller]).

    Go code that can panic, or block on a peer that never answers, is
    written in a small state monad whose outcomes are [Done],
    [Panicked] and [Blocked].  Everything the program obtains from the
    operating system, the network or the Go libraries is read from an
    explicit environment record [Env]. *)

From stdpp Require Import base strings list gmap.
From Stdlib Require Import ZArith Lia.

Local Open Scope Z_scope.

(** ** Go basics *)

(** Go's [error] values are modelled by their message. *)
Definition error : Type := string.

(** A Go call returning [(T, error)] with exactly one of them set is a
    [result T error]: [Ok v] for [(v, nil)], [Error e] for [(nil, e)]. *)
Definition goresult (A : Type) : Type := result A error.

(** Outcome of running a piece of Go code from a state [S]. *)
Inductive Outcome (S A : Type) : Type :=
  | Done (a : A) (s : S)           (* returned normally *)
  | Panicked (msg : string) (s : S) (* run-time panic, not recovered *)
  | Blocked (s : S).               (* waits for ever inside a call *)
Arguments Done {S A} a s.
Arguments Panicked {S A} msg s.
Arguments Blocked {S A} s.

Definition Prog (S A : Type) : Type := S -> Outcome S A.

Global Instance prog_ret {S} : MRet (Prog S) := λ A a s, Done a s.
Global Instance prog_bind {S} : MBind (Prog S) := λ A B f m s,
  match m s with
  | Done a s' => f a s'
  | Panicked msg s' => Panicked msg s'
  | Blocked s' => Blocked s'
  end.

Definition modify {S} (f : S -> S) : Prog S unit := λ s, Done tt (f s).
Definition panic {S A} (msg : string) : Prog S A := λ s, Panicked msg s.
Definition block {S A} : Prog S A := λ s, Blocked s.

(** ** time.Duration: a signed 64-bit count of nanoseconds *)

Definition wrap64 (z : Z) : Z := (z + 2 ^ 63) mod 2 ^ 64 - 2 ^ 63.
Definition Duration_mul (a b : Z) : Z := wrap64 (a * b).
Definition time_Second : Z := 1000000000.

(** ** context.Context and remote calls *)

(** Only the deadline of a context matters here. *)
Record Context := { Deadline : option Z }.

(** [context.Background()] is never cancelled and has no deadline. *)
Definition context_Background : Context := {| Deadline := None |}.

(** How a remote peer answers one call: after [latency] nanoseconds
    ([None]: it never answers) with [reply]. *)
Record RPC (A : Type) := { latency : option Z; reply : goresult A }.
Arguments latency {A} _.
Arguments reply {A} _.

(** A call issued under a deadline: the caller gets the reply if it
    arrives in time, a deadline error if it does not, and waits for ever
    when there is neither a reply nor a deadline. *)
Definition await {S A} (deadline : option Z) (r : RPC A) : Prog S (goresult A) :=
  match latency r, deadline with
  | Some l, Some d =>
      if d <? l then mret (Error "context deadline exceeded"%string)
      else mret (reply r)
  | Some _, None => mret (reply r)
  | None, Some _ => mret (Error "context deadline exceeded"%string)
  | None, None => block
  end.

(** ** lnrpc messages *)

Record NodeAddress := { Network : string; Addr : string }.
Record LightningNode := { PubKey : string; Addresses : list NodeAddress }.
Record ChannelGraph := { Nodes : list LightningNode }.

(** ** net/http *)

Record Request := {
  Method : string;
  URL : string;
  Header : list (string * string);
  ReqBody : string
}.

Record Response := { StatusCode : Z; Body : string }.

(** [http.Client]: a [Timeout] of zero means no timeout. *)
Record Client := { Timeout : Z }.

Definition client_deadline (c : Client) : option Z :=
  if Timeout c =? 0 then None else Some (Timeout c).

Definition Header_Set (k v : string) (r : Request) : Request :=
  {| Method := Method r; URL := URL r;
     Header := (k, v) :: filter (λ kv, kv.1 ≠ k) (Header r);
     ReqBody := ReqBody r |}.

(** ** grpc and credentials *)

Definition TransportCredentials : Type := string.
Definition Macaroon : Type := string.

Inductive DialOption :=
  | WithTransportCredentials (creds : TransportCredentials)
  | WithPerRPCCredentials (mac : Macaroon)
  | WithDefaultCallOptions (maxRecv : Z).

Record ClientConn := { target : string; dialOpts : list DialOption }.

(** [lnrpc.LightningClient], as built by [lnrpc.NewLightningClient]. *)
Record LightningClient := { cc : ClientConn }.
Definition NewLightningClient (conn : ClientConn) : LightningClient := {| cc := conn |}.

Definition maxMsgRecvSize : DialOption := WithDefaultCallOptions (1 * 1024 * 1024 * 50).

Definition IP : Type := list Z.

(** ** The environment

    What the operating system, the file system, the network and the Go
    libraries answer.  [lnd_DescribeGraph conn i] and
    [http_RoundTrip req i] are the answers to the [i]-th poll. *)
Record Env := {
  lndHomeDir : string;
  filepath_Dir : string -> string;
  filepath_Clean : string -> string;
  os_ExpandEnv : string -> string;
  credentials_NewClientTLSFromFile : string -> goresult TransportCredentials;
  ioutil_ReadFile : string -> goresult string;
  macaroon_UnmarshalBinary : string -> goresult Macaroon;
  grpc_Dial : string -> list DialOption -> goresult ClientConn;
  lnd_GetInfo : ClientConn -> RPC unit;
  lnd_DescribeGraph : ClientConn -> nat -> RPC ChannelGraph;
  url_Parse : string -> goresult string;
  http_RoundTrip : Request -> nat -> RPC Response;
  jsonpb_Unmarshal : string -> goresult ChannelGraph;
  io_ReadAll : string -> goresult string;
  proto_Unmarshal : string -> goresult ChannelGraph;
  net_ParseIP : string -> option IP
}.

(** [http.NewRequest]: Go returns [(nil, err)] when the URL does not
    parse and [(req, nil)] otherwise; the pair is kept because
    [pktGetGraph] uses the request before it looks at the error. *)
Definition http_NewRequest (env : Env) (method url body : string)
  : option Request * option error :=
  match url_Parse env url with
  | Error e => (None, Some e)
  | Ok u => (Some {| Method := method; URL := u; Header := []; ReqBody := body |}, None)
  end.

(** [client.Do(req)] for the [i]-th poll. *)
Definition Client_Do {S} (env : Env) (c : Client) (req : Request) (i : nat)
  : Prog S (goresult Response) :=
  await (client_deadline c) (http_RoundTrip env req i).

(** [lnd.DescribeGraph(ctx, graphReq)] for the [i]-th poll. *)
Definition DescribeGraph {S} (env : Env) (lnd : LightningClient) (ctx : Context) (i : nat)
  : Prog S (goresult ChannelGraph) :=
  await (Deadline ctx) (lnd_DescribeGraph env (cc lnd) i).

(** ** The command-line flags (lseed.go, lines 30-56) *)

Record Flags := {
  listenAddrUDP : string;
  listenAddrTCP : string;
  bitcoinNodeHost : string;
  litecoinNodeHost : string;
  testNodeHost : string;
  pktNodeHost : string;
  bitcoinTLSPath : string;
  litecoinTLSPath : string;
  testTLSPath : string;
  bitcoinMacPath : string;
  litecoinMacPath : string;
  testMacPath : string;
  rootDomain : string;
  authoritativeIP : string;
  pollInterval : Z;
  debug : bool;
  numResults : Z
}.

Definition default_flags : Flags := {|
  listenAddrUDP := "0.0.0.0:53";
  listenAddrTCP := "0.0.0.0:53";
  bitcoinNodeHost := "";
  litecoinNodeHost := "";
  testNodeHost := "";
  pktNodeHost := "";
  bitcoinTLSPath := "";
  litecoinTLSPath := "";
  testTLSPath := "";
  bitcoinMacPath := "";
  litecoinMacPath := "";
  testMacPath := "";
  rootDomain := "nodes.lightning.directory";
  authoritativeIP := "127.0.0.1";
  pollInterval := 600;
  debug := false;
  numResults := 25
|}.

(** ** cleanAndExpandPath (lines 67-77) *)

(** [strings.Replace(s, old, new, 1)]: the first occurrence only. *)
Fixpoint strings_Replace1 (old new s : string) : string :=
  if String.prefix old s then new +:+ String.substring (String.length old) (String.length s) s
  else match s with
       | EmptyString => s
       | String c s' => String c (strings_Replace1 old new s')
       end.

Definition cleanAndExpandPath (env : Env) (path : string) : string :=
  let path :=
    if String.prefix "~" path then
      let homeDir := filepath_Dir env (lndHomeDir env) in
      strings_Replace1 "~" homeDir path
    else path in
  filepath_Clean env (os_ExpandEnv env path).

(** ** initLightningClient (lines 81-128) *)

(** [fmt.Errorf(format, err)] with a format that has no verb: fmt
    appends the unused argument as an [EXTRA] note. *)
Definition fmt_Errorf_extra (format : string) (e : error) : error :=
  format +:+ "%!(EXTRA error=" +:+ e +:+ ")".

Definition initLightningClient {S} (env : Env) (nodeHost tlsCertPath macPath : string)
  : Prog S (goresult LightningClient) :=
  let tlsCertPath := cleanAndExpandPath env tlsCertPath in
  match credentials_NewClientTLSFromFile env tlsCertPath with
  | Error e => mret (Error ("unable to read cert file: " +:+ e))
  | Ok creds =>
    let opts := [WithTransportCredentials creds] in
    let macPath := cleanAndExpandPath env macPath in
    match ioutil_ReadFile env macPath with
    | Error e => mret (Error e)
    | Ok macBytes =>
      match macaroon_UnmarshalBinary env macBytes with
      | Error e => mret (Error e)
      | Ok mac =>
        let opts := opts ++ [WithPerRPCCredentials mac] in
        let opts := opts ++ [maxMsgRecvSize] in
        match grpc_Dial env nodeHost opts with
        | Error e => mret (Error (fmt_Errorf_extra "unable to dial to lnd's gRPC server: " e))
        | Ok conn =>
          let lnd := NewLightningClient conn in
          r ← await (Deadline context_Background) (lnd_GetInfo env (cc lnd));
          match r with
          | Error e => mret (Error e)
          | Ok _ => mret (Ok lnd)
          end
        end
      end
    end
  end.

(** ** unmarshal (lines 130-143) *)

Definition unmarshal (env : Env) (r : Response) (isJson : bool) : goresult ChannelGraph :=
  if isJson then
    match jsonpb_Unmarshal env (Body r) with
    | Error e => Error e
    | Ok m => Ok m
    end
  else
    match io_ReadAll env (Body r) with
    | Error e => Error e
    | Ok b =>
      match proto_Unmarshal env b with
      | Error e => Error e
      | Ok m => Ok m
      end
    end.

(** ** pktGetGraph (lines 145-164)

    [req.Header.Set] runs before the error of [http.NewRequest] is
    examined; on a nil request it is a nil-pointer dereference. *)
Definition pktGetGraph {S} (env : Env) (pktNodeHost : string) (i : nat)
  : Prog S (goresult ChannelGraph) :=
  let client := {| Timeout := 0 |} in
  let jsonObj := "{}"%string in
  let '(req, err) :=
    http_NewRequest env "POST" (pktNodeHost +:+ "/api/v1/lightning/graph") jsonObj in
  match req with
  | None => panic "runtime error: invalid memory address or nil pointer dereference"
  | Some req =>
    let req := Header_Set "Content-Type" "application/json" req in
    match err with
    | Some e => mret (Error e)
    | None =>
      resp ← Client_Do env client req i;
      match resp with
      | Error e => mret (Error e)
      | Ok resp =>
        match unmarshal env resp true with
        | Error e => mret (Error e)
        | Ok gc => mret (Ok gc)
        end
      end
    end
  end.

(** ** Observable events: log calls and calls into other packages *)

Inductive Level := ErrorLevel | InfoLevel | DebugLevel.

Inductive LogArg :=
  | ArgInt (n : Z)
  | ArgErr (e : error)
  | ArgAddrs (a : list NodeAddress).

Inductive Event :=
  | EvFetch (i : nat)                                      (* the i-th graph fetch starts *)
  | EvLog (lvl : Level) (format : string) (args : list LogArg) (* log.Errorf / Infof / Debugf *)
  | EvAddNode (node : LightningNode)                       (* nview.AddNode(node) *)
  | EvNewTicker (d : Z)                                    (* time.NewTicker(d) *)
  | EvTick (i : nat).                                      (* a receive from ticker.C *)

Definition is_error_log (ev : Event) : bool :=
  match ev with EvLog ErrorLevel _ _ => true | _ => false end.

Definition is_schedule (ev : Event) : bool :=
  match ev with EvFetch _ | EvNewTicker _ | EvTick _ => true | _ => false end.

Definition is_AddNode (ev : Event) : option LightningNode :=
  match ev with EvAddNode n => Some n | _ => None end.

Record Ticker := { period : Z }.

(** A [*seed.NetworkView] is an index into the heap of views. *)
Definition ViewPtr : Type := nat.

(** [seed.ChainView]; only [NetView] is set by [main]. *)
Record ChainView := { NetView : ViewPtr }.

Inductive Goroutine :=
  | GoDebugHTTP                                        (* http.ListenAndServe(":9091", nil) *)
  | GoPoller (lnd : LightningClient) (nview : ViewPtr)  (* go poller(lndNode, nView) *)
  | GoPktPoller (host : string) (nview : ViewPtr).      (* go pktPoller(host, nView) *)

Definition feeds (g : Goroutine) (p : ViewPtr) : bool :=
  match g with
  | GoDebugHTTP => false
  | GoPoller _ q | GoPktPoller _ q => bool_decide (q = p)
  end.

(** The arguments [main] hands to [seed.NewDnsServer]; [Serve] is then
    called on the server built from them. *)
Record DnsServer := {
  chainViews : gmap string ChainView;
  srvListenUDP : string;
  srvListenTCP : string;
  srvRootDomain : string;
  srvRootIP : option IP
}.

Definition NewDnsServer (m : gmap string ChainView) (udp tcp dom : string) (ip : option IP)
  : DnsServer :=
  {| chainViews := m; srvListenUDP := udp; srvListenTCP := tcp;
     srvRootDomain := dom; srvRootIP := ip |}.

Section Seed.

(** The [seed] package is outside lseed.go: its network view is kept
    abstract, with the two operations lseed.go calls. *)
Variable NetworkView : Type.
Variable NewNetworkView : string -> NetworkView.
Variable AddNode : LightningNode -> NetworkView -> NetworkView * option error.

(** *** The pollers *)

Record PollerState := { nview : NetworkView; trace : list Event }.

Definition emit (ev : Event) : Prog PollerState unit :=
  modify (λ s, {| nview := nview s; trace := trace s ++ [ev] |}).

Definition logf (lvl : Level) (format : string) (args : list LogArg)
  : Prog PollerState unit :=
  emit (EvLog lvl format args).

Definition nview_AddNode (node : LightningNode) : Prog PollerState (option error) :=
  λ s, let '(v, r) := AddNode node (nview s) in
       Done r {| nview := v; trace := trace s ++ [EvAddNode node] |}.

(** [for _, node := range graph.Nodes { ... }], the same in both pollers. *)
Fixpoint range_Nodes (nodes : list LightningNode) : Prog PollerState unit :=
  match nodes with
  | [] => mret tt
  | node :: rest =>
    if (length (Addresses node) =? 0)%nat then range_Nodes rest
    else
      r ← nview_AddNode node;
      _ ← match r with
          | Some err => logf DebugLevel "Unable to add node: %v" [ArgErr err]
          | None => logf DebugLevel "Adding node: %v" [ArgAddrs (Addresses node)]
          end;
      range_Nodes rest
  end.

(** [scrapeGraph] of [pktPoller] (lines 167-185), for the [i]-th poll. *)
Definition pktPoller_scrapeGraph (env : Env) (pktNodeHost : string) (i : nat)
  : Prog PollerState unit :=
  _ ← emit (EvFetch i);
  r ← pktGetGraph env pktNodeHost i;
  match r with
  | Error err => logf ErrorLevel "Error getting node graph: {}" [ArgErr err]
  | Ok graph =>
    _ ← logf DebugLevel "Got %d nodes from lnd" [ArgInt (Z.of_nat (length (Nodes graph)))];
    range_Nodes (Nodes graph)
  end.

(** [scrapeGraph] of [poller] (lines 198-219), for the [i]-th poll. *)
Definition poller_scrapeGraph (env : Env) (lnd : LightningClient) (i : nat)
  : Prog PollerState unit :=
  _ ← emit (EvFetch i);
  r ← DescribeGraph env lnd context_Background i;
  match r with
  | Error err => mret tt
  | Ok graph =>
    _ ← logf DebugLevel "Got %d nodes from lnd" [ArgInt (Z.of_nat (length (Nodes graph)))];
    range_Nodes (Nodes graph)
  end.

(** [time.NewTicker(d)] panics unless [d] is positive. *)
Definition time_NewTicker (d : Z) : Prog PollerState Ticker :=
  if d <=? 0 then panic "non-positive interval for NewTicker"
  else (_ ← emit (EvNewTicker d); mret {| period := d |}).

(** [for range ticker.C { scrapeGraph() }], observed for [n] ticks from
    poll number [i].  The channel of a ticker is never closed, so the
    loop has no exit: [Done] after [n] ticks means that the goroutine
    is parked on [ticker.C], waiting for the next one. *)
Fixpoint range_ticker (scrapeGraph : nat -> Prog PollerState unit) (i n : nat)
  : Prog PollerState unit :=
  match n with
  | O => mret tt
  | S n' =>
    _ ← emit (EvTick i);
    _ ← scrapeGraph i;
    range_ticker scrapeGraph (S i) n'
  end.

(** The ticker period: [time.Second] times the poll-interval flag as a [time.Duration]. *)
Definition poll_period (flags : Flags) : Z :=
  Duration_mul time_Second (wrap64 (pollInterval flags)).

(** [pktPoller] (lines 166-193), observed for [n] ticks. *)
Definition pktPoller (env : Env) (flags : Flags) (pktNodeHost : string) (n : nat)
  : Prog PollerState unit :=
  let scrapeGraph := pktPoller_scrapeGraph env pktNodeHost in
  _ ← scrapeGraph O;
  ticker ← time_NewTicker (poll_period flags);
  range_ticker scrapeGraph 1 n.

(** [poller] (lines 197-227), observed for [n] ticks. *)
Definition poller (env : Env) (flags : Flags) (lnd : LightningClient) (n : nat)
  : Prog PollerState unit :=
  let scrapeGraph := poller_scrapeGraph env lnd in
  _ ← scrapeGraph O;
  ticker ← time_NewTicker (poll_period flags);
  range_ticker scrapeGraph 1 n.

(** *** main *)

Record MainState := {
  heap : list NetworkView;       (* the views allocated so far *)
  goroutines : list Goroutine;   (* the goroutines started so far *)
  logLevel : Level;
  mlog : list Event
}.

Definition initial_state : MainState :=
  {| heap := []; goroutines := []; logLevel := InfoLevel; mlog := [] |}.

Definition log_Infof (msg : string) : Prog MainState unit :=
  modify (λ s, {| heap := heap s; goroutines := goroutines s; logLevel := logLevel s;
                  mlog := mlog s ++ [EvLog InfoLevel msg []] |}).

Definition log_SetLevel (l : Level) : Prog MainState unit :=
  modify (λ s, {| heap := heap s; goroutines := goroutines s; logLevel := l;
                  mlog := mlog s |}).

(** [go f(...)] *)
Definition go (g : Goroutine) : Prog MainState unit :=
  modify (λ s, {| heap := heap s; goroutines := goroutines s ++ [g];
                  logLevel := logLevel s; mlog := mlog s |}).

(** [seed.NewNetworkView(name)]: a pointer to a new view. *)
Definition seed_NewNetworkView (name : string) : Prog MainState ViewPtr :=
  λ s, Done (length (heap s))
            {| heap := heap s ++ [NewNetworkView name]; goroutines := goroutines s;
               logLevel := logLevel s; mlog := mlog s |}.

(** [configure] (lines 230-239); [flag.Parse] has produced [flags]. *)
Definition configure (flags : Flags) : Prog MainState unit :=
  if debug flags then
    _ ← log_SetLevel DebugLevel; log_Infof "Logging on level Debug"
  else
    _ ← log_SetLevel InfoLevel; log_Infof "Logging on level Info".

Definition nonempty (s : string) : bool := negb (String.eqb s "").

(** [main] (lines 242-336).  [Done srv s] means that [main] has reached
    [dnsServer.Serve()] on the server [srv]. *)
Definition main (env : Env) (flags : Flags) : Prog MainState DnsServer :=
  _ ← configure flags;
  _ ← go GoDebugHTTP;
  let netViewMap : gmap string ChainView := ∅ in
  netViewMap ←
    (if nonempty (bitcoinNodeHost flags) && nonempty (bitcoinTLSPath flags)
        && nonempty (bitcoinMacPath flags) then
       _ ← log_Infof "Creating BTC chain view";
       r ← initLightningClient env (bitcoinNodeHost flags) (bitcoinTLSPath flags)
             (bitcoinMacPath flags);
       match r with
       | Error err => panic ("unable to connect to btc lnd: " +:+ err)
       | Ok lndNode =>
         nView ← seed_NewNetworkView "bitcoin";
         _ ← go (GoPoller lndNode nView);
         _ ← log_Infof "BTC chain view active";
         mret (<[""%string := {| NetView := nView |}]> netViewMap)
       end
     else mret netViewMap);
  netViewMap ←
    (if nonempty (litecoinNodeHost flags) && nonempty (litecoinTLSPath flags)
        && nonempty (litecoinMacPath flags) then
       _ ← log_Infof "Creating LTC chain view";
       r ← initLightningClient env (litecoinNodeHost flags) (litecoinTLSPath flags)
             (litecoinMacPath flags);
       match r with
       | Error err => panic ("unable to connect to ltc lnd: " +:+ err)
       | Ok lndNode =>
         nView ← seed_NewNetworkView "litecoin";
         _ ← go (GoPoller lndNode nView);
         mret (<["ltc."%string := {| NetView := nView |}]> netViewMap)
       end
     else mret netViewMap);
  netViewMap ←
    (if nonempty (testNodeHost flags) && nonempty (testTLSPath flags)
        && nonempty (testMacPath flags) then
       _ ← log_Infof "Creating BTC testnet chain view";
       r ← initLightningClient env (testNodeHost flags) (testTLSPath flags)
             (testMacPath flags);
       match r with
       | Error err => panic ("unable to connect to test lnd: " +:+ err)
       | Ok lndNode =>
         nView ← seed_NewNetworkView "testnet";
         _ ← go (GoPoller lndNode nView);
         _ ← log_Infof "TBCT chain view active";
         mret (<["test."%string := {| NetView := nView |}]> netViewMap)
       end
     else mret netViewMap);
  netViewMap ←
    (if nonempty (pktNodeHost flags) then
       _ ← log_Infof "Creating PKT chain view";
       nView ← seed_NewNetworkView "pkt";
       _ ← go (GoPktPoller (pktNodeHost flags) nView);
       _ ← log_Infof "PKT chain view active";
       mret (<["pkt."%string := {| NetView := nView |}]> netViewMap)
     else mret netViewMap);
  if (size netViewMap =? 0)%nat then panic "must specify at least one node type"
  else
    let rootIP := net_ParseIP env (authoritativeIP flags) in
    let dnsServer :=
      NewDnsServer netViewMap (listenAddrUDP flags) (listenAddrTCP flags)
        (rootDomain flags) rootIP in
    mret dnsServer.

End Seed.

(** ** A concrete registry and concrete environments

    Used to run the program on explicit inputs. *)

(** Modelled from the spec: [seed.NetworkView] and its [AddNode] (the
    [seed] package is not part of lseed.go).  The registry maps an
    identity to its peer record; an upsert replaces the entry
    wholesale and fails only on an ill-formed (empty) identity. *)
Record Registry := { chain_name : string; registry : gmap string (list NodeAddress) }.

Definition Registry_New (name : string) : Registry :=
  {| chain_name := name; registry := ∅ |}.

Definition Registry_AddNode (node : LightningNode) (v : Registry)
  : Registry * option error :=
  if String.eqb (PubKey node) "" then (v, Some "invalid identity"%string)
  else ({| chain_name := chain_name v;
           registry := <[PubKey node := Addresses node]> (registry v) |}, None).

(** A fragment of [net/url]'s parser, enough to tell the URLs that
    [http.NewRequest] refuses: a control character anywhere, a missing
    scheme, and a colon in the first segment of a scheme-less path. *)
Definition ascii_code (c : Ascii.ascii) : Z := Z.of_nat (Ascii.nat_of_ascii c).

Definition isCTL (c : Ascii.ascii) : bool :=
  (ascii_code c <? 32) || (ascii_code c =? 127).

Fixpoint stringContainsCTLByte (s : string) : bool :=
  match s with
  | EmptyString => false
  | String c rest => isCTL c || stringContainsCTLByte rest
  end.

Definition is_letter (c : Ascii.ascii) : bool :=
  ((97 <=? ascii_code c) && (ascii_code c <=? 122))
  || ((65 <=? ascii_code c) && (ascii_code c <=? 90)).

Definition is_scheme_extra (c : Ascii.ascii) : bool :=
  ((48 <=? ascii_code c) && (ascii_code c <=? 57))
  || (ascii_code c =? 43) || (ascii_code c =? 45) || (ascii_code c =? 46).

Inductive SchemeScan := NoScheme | MissingScheme | SchemeEnds (i : nat).

Fixpoint getScheme (i : nat) (rawURL : string) : SchemeScan :=
  match rawURL with
  | EmptyString => NoScheme
  | String c rest =>
    if is_letter c then getScheme (S i) rest
    else if is_scheme_extra c then
      if (i =? 0)%nat then NoScheme else getScheme (S i) rest
    else if ascii_code c =? 58 then
      if (i =? 0)%nat then MissingScheme else SchemeEnds i
    else NoScheme
  end.

Fixpoint first_segment_has_colon (s : string) : bool :=
  match s with
  | EmptyString => false
  | String c rest =>
    if ascii_code c =? 47 then false
    else if ascii_code c =? 58 then true
    else first_segment_has_colon rest
  end.

Definition go_url_Parse (rawURL : string) : goresult string :=
  if stringContainsCTLByte rawURL then
    Error "net/url: invalid control character in URL"%string
  else
    match getScheme 0 rawURL with
    | MissingScheme => Error "missing protocol scheme"%string
    | SchemeEnds _ => Ok rawURL
    | NoScheme =>
      if String.prefix "/" rawURL then Ok rawURL
      else if first_segment_has_colon rawURL then
        Error "first path segment in URL cannot contain colon"%string
      else Ok rawURL
    end.

(** Dotted-quad IPv4 literals, the part of [net.ParseIP] used below. *)
Definition digit_value (c : Ascii.ascii) : option Z :=
  if (48 <=? ascii_code c) && (ascii_code c <=? 57) then Some (ascii_code c - 48) else None.

Fixpoint parse_dotted (s : string) (cur : option Z) (acc : list Z) : option (list Z) :=
  match s with
  | EmptyString =>
    match cur with Some v => Some (acc ++ [v]) | None => None end
  | String c rest =>
    if ascii_code c =? 46 then
      match cur with Some v => parse_dotted rest None (acc ++ [v]) | None => None end
    else
      match digit_value c with
      | None => None
      | Some d =>
        let v := match cur with Some v => 10 * v + d | None => d end in
        if v <=? 255 then parse_dotted rest (Some v) acc else None
      end
  end.

Definition ipv4_ParseIP (s : string) : option IP :=
  match parse_dotted s None [] with
  | Some l => if (length l =? 4)%nat then Some l else None
  | None => None
  end.

Definition answers {A} (a : A) : RPC A := {| latency := Some 1000000; reply := Ok a |}.
Definition fails {A} (e : error) : RPC A := {| latency := Some 1000000; reply := Error e |}.
Definition never {A} : RPC A := {| latency := None; reply := Error "no reply"%string |}.

Definition alice : LightningNode :=
  {| PubKey := "02aa"; Addresses := [{| Network := "tcp"; Addr := "10.0.0.1:9735" |}] |}.
Definition bob : LightningNode := {| PubKey := "03bb"; Addresses := [] |}.
Definition carol : LightningNode :=
  {| PubKey := "02cc";
     Addresses := [{| Network := "tcp"; Addr := "10.0.0.3:9735" |};
                   {| Network := "tcp"; Addr := "[2001:db8::3]:9735" |}] |}.

Definition sample_graph : ChannelGraph := {| Nodes := [alice; bob; carol] |}.
Definition sample_json : string := "{nodes: [alice, bob, carol]}".

(** An environment with a readable certificate and macaroon (unless
    the path starts with [/missing]), a non-blocking dial, and the
    given answers of the lnd node and of the HTTP endpoint. *)
Definition sample_env (getinfo : RPC unit) (describe : nat -> RPC ChannelGraph)
    (roundtrip : nat -> RPC Response) : Env := {|
  lndHomeDir := "/home/seed/.lnd";
  filepath_Dir := λ _, "/home/seed"%string;
  filepath_Clean := λ p, p;
  os_ExpandEnv := λ p, p;
  credentials_NewClientTLSFromFile := λ p,
    if String.prefix "/missing" p then Error "open: no such file or directory"%string
    else Ok p;
  ioutil_ReadFile := λ p,
    if String.prefix "/missing" p then Error "open: no such file or directory"%string
    else Ok "macaroon"%string;
  macaroon_UnmarshalBinary := λ b, Ok b;
  grpc_Dial := λ h opts, Ok {| target := h; dialOpts := opts |};
  lnd_GetInfo := λ _, getinfo;
  lnd_DescribeGraph := λ _, describe;
  url_Parse := go_url_Parse;
  http_RoundTrip := λ _, roundtrip;
  jsonpb_Unmarshal := λ b,
    if String.eqb b sample_json then Ok sample_graph
    else Error "json: cannot unmarshal"%string;
  io_ReadAll := λ b, Ok b;
  proto_Unmarshal := λ _, Error "proto: cannot parse"%string;
  net_ParseIP := ipv4_ParseIP
|}.

(** Every backing node answers. *)
Definition env_up : Env :=
  sample_env (answers tt) (λ _, answers sample_graph)
    (λ _, answers {| StatusCode := 200; Body := sample_json |}).

(** Every backing node refuses the connection. *)
Definition env_down : Env :=
  sample_env (fails "connection refused") (λ _, fails "connection refused")
    (λ _, fails "connection refused").

(** The backing nodes answer the first poll and then go silent. *)
Definition env_silent : Env :=
  sample_env (answers tt)
    (λ i, match i with O => answers sample_graph | _ => never end)
    (λ i, match i with O => answers {| StatusCode := 200; Body := sample_json |}
                  | _ => never end).

Definition make_flags (btc ltc tst : string * string * string) (pkt ip : string)
    (poll results : Z) : Flags := {|
  listenAddrUDP := "0.0.0.0:53";
  listenAddrTCP := "0.0.0.0:53";
  bitcoinNodeHost := btc.1.1;
  litecoinNodeHost := ltc.1.1;
  testNodeHost := tst.1.1;
  pktNodeHost := pkt;
  bitcoinTLSPath := btc.1.2;
  litecoinTLSPath := ltc.1.2;
  testTLSPath := tst.1.2;
  bitcoinMacPath := btc.2;
  litecoinMacPath := ltc.2;
  testMacPath := tst.2;
  rootDomain := "nodes.lightning.directory";
  authoritativeIP := ip;
  pollInterval := poll;
  debug := false;
  numResults := results
|}.

Definition unset : string * string * string := (""%string, ""%string, ""%string).
Definition lnd_at (host : string) : string * string * string :=
  (host, "~/tls.cert"%string, "~/admin.macaroon"%string).

Definition sample_lnd : LightningClient :=
  NewLightningClient {| target := "10.0.0.9:10009"; dialOpts := [] |}.

Definition empty_poller : PollerState Registry :=
  {| nview := Registry_New "pkt"; trace := [] |}.

(** The pkt host given as a bare [host:port], as the flag's help text
    words it, and given as a URL. *)
Definition pkt_host_port : string := "127.0.0.1:8080".
Definition pkt_url : string := "http://127.0.0.1:8080".

Definition lnd_host : string := "10.0.0.9:10009".

Definition flags_pkt_only : Flags :=
  make_flags unset unset unset pkt_url "127.0.0.1" 600 25.
Definition flags_btc_pkt : Flags :=
  make_flags (lnd_at lnd_host) unset unset pkt_url "127.0.0.1" 600 25.
(** The bitcoin chain with its TLS path left out. *)
Definition flags_btc_partial : Flags :=
  make_flags (lnd_host, ""%string, "~/admin.macaroon"%string) unset unset pkt_url
    "127.0.0.1" 600 25.

(** A poll interval of zero seconds. *)
Definition flags_zero_interval : Flags :=
  make_flags unset unset unset pkt_url "127.0.0.1" 0 25.

(** A graph none of whose entries has an address. *)
Definition addressless_graph : ChannelGraph :=
  {| Nodes := [bob; {| PubKey := "03dd"; Addresses := [] |}] |}.

Definition env_addressless : Env :=
  sample_env (answers tt) (λ _, answers addressless_graph) (λ _, fails "connection refused").

(** No backing node ever answers. *)
Definition env_hung : Env := sample_env never (λ _, never) (λ _, never).

(** ** Vocabulary of the statements *)

Definition nil_dereference : string :=
  "runtime error: invalid memory address or nil pointer dereference".

(** Re-reading an outcome computed on the unit state at a state [s];
    used for calls that never touch the state. *)
Definition at_state {S A} (o : Outcome unit A) (s : S) : Outcome S A :=
  match o with
  | Done a _ => Done a s
  | Panicked msg _ => Panicked msg s
  | Blocked _ => Blocked s
  end.

Definition has_address (n : LightningNode) : bool :=
  negb (length (Addresses n) =? 0)%nat.

(** The entries of a peer list that carry at least one address. *)
Definition admitted (nodes : list LightningNode) : list LightningNode :=
  List.filter has_address nodes.

(** The [AddNode] calls recorded in a trace, in order. *)
Definition addnode_calls (t : list Event) : list LightningNode := omap is_AddNode t.

(** The fetches, ticker creations and ticks recorded in a trace. *)
Definition schedule (t : list Event) : list Event := List.filter is_schedule t.

Definition error_logs (t : list Event) : list Event := List.filter is_error_log t.


Definition graph_url (host : string) : string := host +:+ "/api/v1/lightning/graph".

(** The request [pktGetGraph] sends once the URL [u] has parsed. *)
Definition graph_request (u : string) : Request :=
  Header_Set "Content-Type" "application/json"
    {| Method := "POST"; URL := u; Header := []; ReqBody := "{}" |}.

(** The two kinds of graph source a poller is started on. *)
Inductive GraphSource :=
  | LndSource (lnd : LightningClient)   (* [poller]: gRPC [DescribeGraph] *)
  | PktSource (host : string).          (* [pktPoller]: HTTP [pktGetGraph] *)

(** The outcome of the [i]-th fetch of a source. *)
Definition fetch_graph (env : Env) (src : GraphSource) (i : nat)
  : Outcome unit (goresult ChannelGraph) :=
  match src with
  | LndSource lnd => DescribeGraph env lnd context_Background i tt
  | PktSource host => pktGetGraph env host i tt
  end.

(** The gate of each chain's block in [main]. *)
Definition btc_enabled (f : Flags) : bool :=
  nonempty (bitcoinNodeHost f) && nonempty (bitcoinTLSPath f) && nonempty (bitcoinMacPath f).
Definition ltc_enabled (f : Flags) : bool :=
  nonempty (litecoinNodeHost f) && nonempty (litecoinTLSPath f) && nonempty (litecoinMacPath f).
Definition test_enabled (f : Flags) : bool :=
  nonempty (testNodeHost f) && nonempty (testTLSPath f) && nonempty (testMacPath f).
Definition pkt_enabled (f : Flags) : bool := nonempty (pktNodeHost f).

(** The outcome of each chain's [initLightningClient] call. *)
Definition btc_init (env : Env) (f : Flags) : Outcome unit (goresult LightningClient) :=
  initLightningClient env (bitcoinNodeHost f) (bitcoinTLSPath f) (bitcoinMacPath f) tt.
Definition ltc_init (env : Env) (f : Flags) : Outcome unit (goresult LightningClient) :=
  initLightningClient env (litecoinNodeHost f) (litecoinTLSPath f) (litecoinMacPath f) tt.
Definition test_init (env : Env) (f : Flags) : Outcome unit (goresult LightningClient) :=
  initLightningClient env (testNodeHost f) (testTLSPath f) (testMacPath f) tt.

Definition succeeded {A} (o : Outcome unit (goresult A)) : Prop :=
  ∃ a, o = Done (Ok a) tt.

(** The chain served under each prefix. *)
Definition chain_of_prefix (prefix : string) : option string :=
  if String.eqb prefix "" then Some "bitcoin"%string
  else if String.eqb prefix "ltc." then Some "litecoin"%string
  else if String.eqb prefix "test." then Some "testnet"%string
  else if String.eqb prefix "pkt." then Some "pkt"%string
  else None.

(** A chain is present in the server's map under [prefix]. *)
Definition chain_view_created (prefix : string) (srv : DnsServer) : Prop :=
  is_Some (chainViews srv !! prefix).

(** The three flags of an lnd chain are all non-empty. *)
Definition all_set (h t m : string) : Prop :=
  h ≠ ""%string ∧ t ≠ ""%string ∧ m ≠ ""%string.

(** The goroutines that write to the view at [p]. *)
Definition pollers_of (p : ViewPtr) (gs : list Goroutine) : list Goroutine :=
  List.filter (λ g, feeds g p) gs.

(** The chain under [prefix] has a view and a goroutine that feeds it. *)
Definition chain_poller_started (prefix : string) (srv : DnsServer) (gs : list Goroutine)
  : Prop :=
  ∃ cv, chainViews srv !! prefix = Some cv ∧ pollers_of (NetView cv) gs ≠ [].

Definition set_numResults (n : Z) (f : Flags) : Flags := {|
  listenAddrUDP := listenAddrUDP f; listenAddrTCP := listenAddrTCP f;
  bitcoinNodeHost := bitcoinNodeHost f; litecoinNodeHost := litecoinNodeHost f;
  testNodeHost := testNodeHost f; pktNodeHost := pktNodeHost f;
  bitcoinTLSPath := bitcoinTLSPath f; litecoinTLSPath := litecoinTLSPath f;
  testTLSPath := testTLSPath f;
  bitcoinMacPath := bitcoinMacPath f; litecoinMacPath := litecoinMacPath f;
  testMacPath := testMacPath f;
  rootDomain := rootDomain f; authoritativeIP := authoritativeIP f;
  pollInterval := pollInterval f; debug := debug f; numResults := n |}.

Definition set_authoritativeIP (ip : string) (f : Flags) : Flags := {|
  listenAddrUDP := listenAddrUDP f; listenAddrTCP := listenAddrTCP f;
  bitcoinNodeHost := bitcoinNodeHost f; litecoinNodeHost := litecoinNodeHost f;
  testNodeHost := testNodeHost f; pktNodeHost := pktNodeHost f;
  bitcoinTLSPath := bitcoinTLSPath f; litecoinTLSPath := litecoinTLSPath f;
  testTLSPath := testTLSPath f;
  bitcoinMacPath := bitcoinMacPath f; litecoinMacPath := litecoinMacPath f;
  testMacPath := testMacPath f;
  rootDomain := rootDomain f; authoritativeIP := ip;
  pollInterval := pollInterval f; debug := debug f; numResults := numResults f |}.

(** The same flags with one chain's three flags left at their (empty) default. *)
Definition clear_bitcoin (f : Flags) : Flags := {|
  listenAddrUDP := listenAddrUDP f; listenAddrTCP := listenAddrTCP f;
  bitcoinNodeHost := ""; litecoinNodeHost := litecoinNodeHost f;
  testNodeHost := testNodeHost f; pktNodeHost := pktNodeHost f;
  bitcoinTLSPath := ""; litecoinTLSPath := litecoinTLSPath f;
  testTLSPath := testTLSPath f;
  bitcoinMacPath := ""; litecoinMacPath := litecoinMacPath f;
  testMacPath := testMacPath f;
  rootDomain := rootDomain f; authoritativeIP := authoritativeIP f;
  pollInterval := pollInterval f; debug := debug f; numResults := numResults f |}.

Definition clear_litecoin (f : Flags) : Flags := {|
  listenAddrUDP := listenAddrUDP f; listenAddrTCP := listenAddrTCP f;
  bitcoinNodeHost := bitcoinNodeHost f; litecoinNodeHost := "";
  testNodeHost := testNodeHost f; pktNodeHost := pktNodeHost f;
  bitcoinTLSPath := bitcoinTLSPath f; litecoinTLSPath := "";
  testTLSPath := testTLSPath f;
  bitcoinMacPath := bitcoinMacPath f; litecoinMacPath := "";
  testMacPath := testMacPath f;
  rootDomain := rootDomain f; authoritativeIP := authoritativeIP f;
  pollInterval := pollInterval f; debug := debug f; numResults := numResults f |}.

Definition clear_test (f : Flags) : Flags := {|
  listenAddrUDP := listenAddrUDP f; listenAddrTCP := listenAddrTCP f;
  bitcoinNodeHost := bitcoinNodeHost f; litecoinNodeHost := litecoinNodeHost f;
  testNodeHost := ""; pktNodeHost := pktNodeHost f;
  bitcoinTLSPath := bitcoinTLSPath f; litecoinTLSPath := litecoinTLSPath f;
  testTLSPath := "";
  bitcoinMacPath := bitcoinMacPath f; litecoinMacPath := litecoinMacPath f;
  testMacPath := "";
  rootDomain := rootDomain f; authoritativeIP := authoritativeIP f;
  pollInterval := pollInterval f; debug := debug f; numResults := numResults f |}.

(** The same environment with another HTTP side: URL parsing, round
    trips and payload decoding. *)
Definition set_http (parse : string -> goresult string)
    (roundtrip : Request -> nat -> RPC Response)
    (decode : string -> goresult ChannelGraph) (env : Env) : Env := {|
  lndHomeDir := lndHomeDir env;
  filepath_Dir := filepath_Dir env;
  filepath_Clean := filepath_Clean env;
  os_ExpandEnv := os_ExpandEnv env;
  credentials_NewClientTLSFromFile := credentials_NewClientTLSFromFile env;
  ioutil_ReadFile := ioutil_ReadFile env;
  macaroon_UnmarshalBinary := macaroon_UnmarshalBinary env;
  grpc_Dial := grpc_Dial env;
  lnd_GetInfo := lnd_GetInfo env;
  lnd_DescribeGraph := lnd_DescribeGraph env;
  url_Parse := parse;
  http_RoundTrip := roundtrip;
  jsonpb_Unmarshal := decode;
  io_ReadAll := io_ReadAll env;
  proto_Unmarshal := proto_Unmarshal env;
  net_ParseIP := net_ParseIP env
|}.

Definition set_rootIP (ip : option IP) (srv : DnsServer) : DnsServer :=
  NewDnsServer (chainViews srv) (srvListenUDP srv) (srvListenTCP srv) (srvRootDomain srv) ip.

(** The largest poll interval, in seconds, that fits a [time.Duration]. *)
Definition max_poll_seconds : Z := 9223372036.

(** The state an outcome ends in. *)
Definition final_state {S A} (o : Outcome S A) : S :=
  match o with
  | Done _ s => s
  | Panicked _ s => s
  | Blocked s => s
  end.

(** [initLightningClient] has got as far as a dialed connection: the
    certificate was read, the macaroon file read and decoded, and
    [grpc.Dial] returned [conn] for the three dial options. *)
Definition dialed (env : Env) (nodeHost tlsCertPath macPath : string) (conn : ClientConn)
  : Prop :=
  ∃ creds macBytes mac,
    credentials_NewClientTLSFromFile env (cleanAndExpandPath env tlsCertPath) = Ok creds
    ∧ ioutil_ReadFile env (cleanAndExpandPath env macPath) = Ok macBytes
    ∧ macaroon_UnmarshalBinary env macBytes = Ok mac
    ∧ grpc_Dial env nodeHost
        [WithTransportCredentials creds; WithPerRPCCredentials mac; maxMsgRecvSize]
      = Ok conn.

(** The same environment with the status code of every HTTP response
    rewritten by [f]. *)
Definition with_status (f : Z -> Z) (env : Env) : Env := {|
  lndHomeDir := lndHomeDir env;
  filepath_Dir := filepath_Dir env;
  filepath_Clean := filepath_Clean env;
  os_ExpandEnv := os_ExpandEnv env;
  credentials_NewClientTLSFromFile := credentials_NewClientTLSFromFile env;
  ioutil_ReadFile := ioutil_ReadFile env;
  macaroon_UnmarshalBinary := macaroon_UnmarshalBinary env;
  grpc_Dial := grpc_Dial env;
  lnd_GetInfo := lnd_GetInfo env;
  lnd_DescribeGraph := lnd_DescribeGraph env;
  url_Parse := url_Parse env;
  http_RoundTrip := λ req i,
    {| latency := latency (http_RoundTrip env req i);
       reply := match reply (http_RoundTrip env req i) with
                | Ok resp => Ok {| StatusCode := f (StatusCode resp); Body := Body resp |}
                | Error e => Error e
                end |};
  jsonpb_Unmarshal := jsonpb_Unmarshal env;
  io_ReadAll := io_ReadAll env;
  proto_Unmarshal := proto_Unmarshal env;
  net_ParseIP := net_ParseIP env
|}.

Definition set_debug (b : bool) (f : Flags) : Flags := {|
  listenAddrUDP := listenAddrUDP f; listenAddrTCP := listenAddrTCP f;
  bitcoinNodeHost := bitcoinNodeHost f; litecoinNodeHost := litecoinNodeHost f;
  testNodeHost := testNodeHost f; pktNodeHost := pktNodeHost f;
  bitcoinTLSPath := bitcoinTLSPath f; litecoinTLSPath := litecoinTLSPath f;
  testTLSPath := testTLSPath f;
  bitcoinMacPath := bitcoinMacPath f; litecoinMacPath := litecoinMacPath f;
  testMacPath := testMacPath f;
  rootDomain := rootDomain f; authoritativeIP := authoritativeIP f;
  pollInterval := pollInterval f; debug := b; numResults := numResults f |}.

(** The names of the configured chains, in the order [main] goes
    through them. *)
Definition enabled_chains (f : Flags) : list string :=
  (if btc_enabled f then ["bitcoin"%string] else [])
  ++ (if ltc_enabled f then ["litecoin"%string] else [])
  ++ (if test_enabled f then ["testnet"%string] else [])
  ++ (if pkt_enabled f then ["pkt"%string] else []).

(** The prefixes of the configured chains, in the order [main] goes
    through them. *)
Definition enabled_prefixes (f : Flags) : list string :=
  (if btc_enabled f then [""%string] else [])
  ++ (if ltc_enabled f then ["ltc."%string] else [])
  ++ (if test_enabled f then ["test."%string] else [])
  ++ (if pkt_enabled f then ["pkt."%string] else []).

(** The goroutine [main] starts for the chain under [prefix] on the
    view at [p]: [poller] on the client its [initLightningClient]
    returned, or [pktPoller] on the pkt host. *)
Definition poller_for (env : Env) (f : Flags) (prefix : string) (p : ViewPtr)
    (g : Goroutine) : Prop :=
  if String.eqb prefix "" then
    ∃ lnd, btc_init env f = Done (Ok lnd) tt ∧ g = GoPoller lnd p
  else if String.eqb prefix "ltc." then
    ∃ lnd, ltc_init env f = Done (Ok lnd) tt ∧ g = GoPoller lnd p
  else if String.eqb prefix "test." then
    ∃ lnd, test_init env f = Done (Ok lnd) tt ∧ g = GoPoller lnd p
  else if String.eqb prefix "pkt." then g = GoPktPoller (pktNodeHost f) p
  else False.

Definition ticker_panic : string := "non-positive interval for NewTicker".
Definition no_chain_panic : string := "must specify at least one node type".

Section SeedFacts.

Variable NetworkView : Type.
Variable NewNetworkView : string -> NetworkView.
Variable AddNode : LightningNode -> NetworkView -> NetworkView * option error.

Local Abbreviation PState := (PollerState NetworkView).

(** The view after upserting [nodes] in order. *)
Definition upsert_all (nodes : list LightningNode) (v : NetworkView) : NetworkView :=
  fold_left (λ v n, (AddNode n v).1) nodes v.

Definition fetch_started (i : nat) (s : PState) : PState :=
  {| nview := nview _ s; trace := trace _ s ++ [EvFetch i] |}.

(** The state in which the poller sits when tick [i] has arrived and
    its fetch has been started. *)
Definition tick_fetch_started (i : nat) (s : PState) : PState :=
  {| nview := nview _ s; trace := (trace _ s ++ [EvTick i]) ++ [EvFetch i] |}.

(** What one poll does to the view, by the result of its fetch. *)
Definition ingest (r : goresult ChannelGraph) (v : NetworkView) : NetworkView :=
  match r with
  | Ok g => upsert_all (admitted (Nodes g)) v
  | Error _ => v
  end.

(** The view after the polls [0 .. polls - 1], given the result of
    each fetch. *)
Definition view_after (replies : nat -> goresult ChannelGraph) (polls : nat)
    (v : NetworkView) : NetworkView :=
  fold_left (λ v k, ingest (replies k) v) (seq 0 polls) v.

Definition scrapeGraph (env : Env) (src : GraphSource) (i : nat) : Prog PState unit :=
  match src with
  | LndSource lnd => poller_scrapeGraph _ AddNode env lnd i
  | PktSource host => pktPoller_scrapeGraph _ AddNode env host i
  end.

Definition run_poller (env : Env) (flags : Flags) (src : GraphSource) (n : nat)
  : Prog PState unit :=
  match src with
  | LndSource lnd => poller _ AddNode env flags lnd n
  | PktSource host => pktPoller _ AddNode env flags host n
  end.

(** *** Calls that leave the state alone *)

Lemma await_no_deadline {S A} (r : RPC A) (s : S) :
  await None r s = match latency r with Some _ => Done (reply r) s | None => Blocked s end.
Proof. unfold await. destruct (latency r); reflexivity. Qed.

Lemma DescribeGraph_Background {S} env lnd i (s : S) :
  DescribeGraph env lnd context_Background i s =
  match latency (lnd_DescribeGraph env (cc lnd) i) with
  | Some _ => Done (reply (lnd_DescribeGraph env (cc lnd) i)) s
  | None => Blocked s
  end.
Proof. unfold DescribeGraph. simpl. apply await_no_deadline. Qed.

Lemma DescribeGraph_at_state {S} env lnd ctx i (s : S) :
  DescribeGraph env lnd ctx i s = at_state (DescribeGraph env lnd ctx i tt) s.
Proof.
  unfold DescribeGraph, await.
  destruct (latency _), (Deadline ctx); try reflexivity.
  destruct (_ <? _); reflexivity.
Qed.

Lemma pktGetGraph_at_state {S} env host i (s : S) :
  pktGetGraph env host i s = at_state (pktGetGraph env host i tt) s.
Proof.
  unfold pktGetGraph, http_NewRequest.
  destruct (url_Parse env _) as [u|e]; [|reflexivity].
  unfold Client_Do, mbind, prog_bind, client_deadline. cbn [Timeout Z.eqb].
  rewrite !await_no_deadline.
  destruct (latency _); [|reflexivity].
  destruct (reply _) as [resp|e]; [|reflexivity].
  destruct (unmarshal env resp true); reflexivity.
Qed.

Lemma initLightningClient_at_state {S} env h t m (s : S) :
  initLightningClient env h t m s = at_state (initLightningClient env h t m tt) s.
Proof.
  unfold initLightningClient.
  destruct (credentials_NewClientTLSFromFile _ _); [|reflexivity].
  destruct (ioutil_ReadFile _ _); [|reflexivity].
  destruct (macaroon_UnmarshalBinary _ _); [|reflexivity].
  destruct (grpc_Dial _ _ _); [|reflexivity].
  unfold mbind, prog_bind. cbn [Deadline context_Background].
  rewrite !await_no_deadline.
  destruct (latency _); [|reflexivity].
  destruct (reply _); reflexivity.
Qed.

(** [pktGetGraph] on a URL that does not parse: the nil request is
    dereferenced. *)
Lemma pktGetGraph_unparsable {S} env host i e (s : S) :
  url_Parse env (graph_url host) = Error e →
  pktGetGraph env host i s = Panicked nil_dereference s.
Proof.
  intros H. unfold pktGetGraph, http_NewRequest. fold (graph_url host).
  rewrite H. reflexivity.
Qed.

(** [pktGetGraph] on a URL that parses: the outcome of the round trip,
    then of the JSON decoding. *)
Lemma pktGetGraph_parsable {S} env host i u (s : S) :
  url_Parse env (graph_url host) = Ok u →
  pktGetGraph env host i s =
  match latency (http_RoundTrip env (graph_request u) i) with
  | None => Blocked s
  | Some _ =>
    match reply (http_RoundTrip env (graph_request u) i) with
    | Error e => Done (Error e) s
    | Ok resp => Done (unmarshal env resp true) s
    end
  end.
Proof.
  intros H. unfold pktGetGraph, http_NewRequest. fold (graph_url host).
  rewrite H. unfold Client_Do, mbind, prog_bind, client_deadline. cbn [Timeout Z.eqb].
  rewrite await_no_deadline. fold (graph_request u).
  destruct (latency _); [|reflexivity].
  destruct (reply _) as [resp|e]; [|reflexivity].
  destruct (unmarshal env resp true); reflexivity.
Qed.

(** *** The loop over the returned nodes *)

Lemma range_Nodes_spec (nodes : list LightningNode) (s : PState) :
  ∃ s', range_Nodes _ AddNode nodes s = Done tt s'
    ∧ nview _ s' = upsert_all (admitted nodes) (nview _ s)
    ∧ addnode_calls (trace _ s') = addnode_calls (trace _ s) ++ admitted nodes
    ∧ schedule (trace _ s') = schedule (trace _ s)
    ∧ error_logs (trace _ s') = error_logs (trace _ s).
Proof.
  revert s. induction nodes as [|node rest IH]; intros s.
  - exists s. cbn. rewrite app_nil_r. auto.
  - cbn [range_Nodes admitted List.filter]. unfold has_address.
    destruct (length (Addresses node) =? 0)%nat eqn:E; cbn [negb].
    + apply IH.
    + unfold mbind, prog_bind, nview_AddNode.
      destruct (AddNode node (nview _ s)) as [v r] eqn:EA.
      set (s1 := {| nview := v; trace := trace _ s ++ [EvAddNode node] |}).
      set (ev := match r with
                 | Some err => EvLog DebugLevel "Unable to add node: %v" [ArgErr err]
                 | None => EvLog DebugLevel "Adding node: %v" [ArgAddrs (Addresses node)]
                 end).
      set (s2 := {| nview := v; trace := (trace _ s ++ [EvAddNode node]) ++ [ev] |}).
      assert (Hlog : match r with
                     | Some err => logf _ DebugLevel "Unable to add node: %v" [ArgErr err]
                     | None => logf _ DebugLevel "Adding node: %v" [ArgAddrs (Addresses node)]
                     end s1 = Done tt s2).
      { subst ev s2 s1. destruct r; reflexivity. }
      rewrite Hlog.
      destruct (IH s2) as (s' & Hrun & Hv & Hc & Hs & He).
      exists s'. split; [exact Hrun|].
      assert (Hev : is_AddNode ev = None ∧ is_schedule ev = false ∧ is_error_log ev = false).
      { subst ev. destruct r; auto. }
      destruct Hev as (Hev1 & Hev2 & Hev3).
      repeat split.
      * rewrite Hv. subst s2. cbn. unfold upsert_all. cbn. rewrite EA. reflexivity.
      * rewrite Hc. subst s2. cbn. unfold addnode_calls.
        rewrite !omap_app. cbn. rewrite Hev1. cbn.
        rewrite app_nil_r, <- app_assoc. reflexivity.
      * rewrite Hs. subst s2. cbn. unfold schedule.
        rewrite !List.filter_app. cbn. rewrite Hev2. rewrite !app_nil_r. reflexivity.
      * rewrite He. subst s2. cbn. unfold error_logs.
        rewrite !List.filter_app. cbn. rewrite Hev3. rewrite !app_nil_r. reflexivity.
Qed.

(** *** One poll of the lnd poller, by the outcome of the fetch *)

Lemma poller_scrapeGraph_hung env lnd i (s : PState) :
  latency (lnd_DescribeGraph env (cc lnd) i) = None →
  poller_scrapeGraph _ AddNode env lnd i s = Blocked (fetch_started i s).
Proof.
  intros H. unfold poller_scrapeGraph, mbind, prog_bind. cbn.
  rewrite DescribeGraph_Background, H. reflexivity.
Qed.

Lemma poller_scrapeGraph_failed env lnd i l e (s : PState) :
  latency (lnd_DescribeGraph env (cc lnd) i) = Some l →
  reply (lnd_DescribeGraph env (cc lnd) i) = Error e →
  poller_scrapeGraph _ AddNode env lnd i s = Done tt (fetch_started i s).
Proof.
  intros H1 H2. unfold poller_scrapeGraph, mbind, prog_bind. cbn.
  rewrite DescribeGraph_Background, H1, H2. reflexivity.
Qed.

Lemma poller_scrapeGraph_fetched env lnd i l g (s : PState) :
  latency (lnd_DescribeGraph env (cc lnd) i) = Some l →
  reply (lnd_DescribeGraph env (cc lnd) i) = Ok g →
  ∃ s', poller_scrapeGraph _ AddNode env lnd i s = Done tt s'
    ∧ nview _ s' = upsert_all (admitted (Nodes g)) (nview _ s)
    ∧ addnode_calls (trace _ s') = addnode_calls (trace _ s) ++ admitted (Nodes g)
    ∧ schedule (trace _ s') = schedule (trace _ s) ++ [EvFetch i]
    ∧ error_logs (trace _ s') = error_logs (trace _ s).
Proof.
  intros H1 H2. unfold poller_scrapeGraph, mbind, prog_bind. cbn.
  rewrite DescribeGraph_Background, H1, H2.
  match goal with |- ∃ s', range_Nodes _ _ _ ?s0 = _ ∧ _ =>
    destruct (range_Nodes_spec (Nodes g) s0) as (s' & Hrun & Hv & Hc & Hs & He) end.
  exists s'. cbn in Hv, Hc, Hs, He. split; [exact Hrun|].
  repeat split.
  - exact Hv.
  - rewrite Hc. unfold addnode_calls. rewrite !omap_app. cbn. rewrite !app_nil_r. reflexivity.
  - rewrite Hs. unfold schedule. rewrite !List.filter_app. cbn. rewrite !app_nil_r. reflexivity.
  - rewrite He. unfold error_logs. rewrite !List.filter_app. cbn. rewrite !app_nil_r. reflexivity.
Qed.

(** *** One poll of the pkt poller, by the outcome of the fetch *)

Lemma pktPoller_scrapeGraph_bind env host i (s : PState) :
  pktPoller_scrapeGraph _ AddNode env host i s =
  match pktGetGraph env host i (fetch_started i s) with
  | Done (Error err) s1 =>
      logf _ ErrorLevel "Error getting node graph: {}" [ArgErr err] s1
  | Done (Ok graph) s1 =>
      (_ ← logf _ DebugLevel "Got %d nodes from lnd"
             [ArgInt (Z.of_nat (length (Nodes graph)))];
       range_Nodes _ AddNode (Nodes graph)) s1
  | Panicked msg s1 => Panicked msg s1
  | Blocked s1 => Blocked s1
  end.
Proof.
  unfold pktPoller_scrapeGraph, mbind at 1 2, prog_bind at 1 2. cbn.
  fold (fetch_started i s).
  destruct (pktGetGraph env host i (fetch_started i s)) as [[g|e] s1|msg s1|s1]; reflexivity.
Qed.

Lemma pktPoller_scrapeGraph_panics env host i msg (s : PState) :
  pktGetGraph env host i tt = Panicked msg tt →
  pktPoller_scrapeGraph _ AddNode env host i s = Panicked msg (fetch_started i s).
Proof.
  intros H. rewrite pktPoller_scrapeGraph_bind, pktGetGraph_at_state, H. reflexivity.
Qed.

Lemma pktPoller_scrapeGraph_hung env host i (s : PState) :
  pktGetGraph env host i tt = Blocked tt →
  pktPoller_scrapeGraph _ AddNode env host i s = Blocked (fetch_started i s).
Proof.
  intros H. rewrite pktPoller_scrapeGraph_bind, pktGetGraph_at_state, H. reflexivity.
Qed.

Lemma pktPoller_scrapeGraph_failed env host i e (s : PState) :
  pktGetGraph env host i tt = Done (Error e) tt →
  pktPoller_scrapeGraph _ AddNode env host i s =
  Done tt {| nview := nview _ s;
             trace := (trace _ s ++ [EvFetch i])
                      ++ [EvLog ErrorLevel "Error getting node graph: {}" [ArgErr e]] |}.
Proof.
  intros H. rewrite pktPoller_scrapeGraph_bind, pktGetGraph_at_state, H. reflexivity.
Qed.

Lemma pktPoller_scrapeGraph_fetched env host i g (s : PState) :
  pktGetGraph env host i tt = Done (Ok g) tt →
  ∃ s', pktPoller_scrapeGraph _ AddNode env host i s = Done tt s'
    ∧ nview _ s' = upsert_all (admitted (Nodes g)) (nview _ s)
    ∧ addnode_calls (trace _ s') = addnode_calls (trace _ s) ++ admitted (Nodes g)
    ∧ schedule (trace _ s') = schedule (trace _ s) ++ [EvFetch i]
    ∧ error_logs (trace _ s') = error_logs (trace _ s).
Proof.
  intros H. rewrite pktPoller_scrapeGraph_bind, pktGetGraph_at_state, H.
  cbn [at_state]. unfold mbind, prog_bind. cbn.
  match goal with |- ∃ s', range_Nodes _ _ _ ?s0 = _ ∧ _ =>
    destruct (range_Nodes_spec (Nodes g) s0) as (s' & Hrun & Hv & Hc & Hs & He) end.
  exists s'. cbn in Hv, Hc, Hs, He. split; [exact Hrun|].
  repeat split.
  - exact Hv.
  - rewrite Hc. unfold addnode_calls. rewrite !omap_app. cbn. rewrite !app_nil_r. reflexivity.
  - rewrite Hs. unfold schedule. rewrite !List.filter_app. cbn. rewrite !app_nil_r. reflexivity.
  - rewrite He. unfold error_logs. rewrite !List.filter_app. cbn. rewrite !app_nil_r. reflexivity.
Qed.

(** *** One poll, for either kind of source *)

Lemma scrapeGraph_failed env src i e (s : PState) :
  fetch_graph env src i = Done (Error e) tt →
  ∃ s', scrapeGraph env src i s = Done tt s'
    ∧ nview _ s' = nview _ s
    ∧ addnode_calls (trace _ s') = addnode_calls (trace _ s)
    ∧ schedule (trace _ s') = schedule (trace _ s) ++ [EvFetch i].
Proof.
  destruct src as [lnd|host]; cbn [fetch_graph scrapeGraph]; intros H.
  - rewrite DescribeGraph_Background in H.
    destruct (latency _) as [l|] eqn:El; [|discriminate].
    inversion H as [Hr].
    rewrite (poller_scrapeGraph_failed _ _ _ _ _ _ El Hr).
    eexists; split; [reflexivity|]. cbn.
    unfold addnode_calls, schedule. rewrite omap_app, List.filter_app. cbn.
    rewrite app_nil_r. auto.
  - rewrite (pktPoller_scrapeGraph_failed _ _ _ _ _ H).
    eexists; split; [reflexivity|]. cbn.
    unfold addnode_calls, schedule. rewrite !omap_app, !List.filter_app. cbn.
    rewrite !app_nil_r. auto.
Qed.

Lemma scrapeGraph_fetched env src i g (s : PState) :
  fetch_graph env src i = Done (Ok g) tt →
  ∃ s', scrapeGraph env src i s = Done tt s'
    ∧ nview _ s' = upsert_all (admitted (Nodes g)) (nview _ s)
    ∧ addnode_calls (trace _ s') = addnode_calls (trace _ s) ++ admitted (Nodes g)
    ∧ schedule (trace _ s') = schedule (trace _ s) ++ [EvFetch i].
Proof.
  destruct src as [lnd|host]; cbn [fetch_graph scrapeGraph]; intros H.
  - rewrite DescribeGraph_Background in H.
    destruct (latency _) as [l|] eqn:El; [|discriminate].
    inversion H as [Hr].
    destruct (poller_scrapeGraph_fetched env lnd i l g s El Hr)
      as (s' & ? & ? & ? & ? & ?).
    exists s'. auto.
  - destruct (pktPoller_scrapeGraph_fetched env host i g s H)
      as (s' & ? & ? & ? & ? & ?).
    exists s'. auto.
Qed.

Lemma scrapeGraph_hung env src i (s : PState) :
  fetch_graph env src i = Blocked tt →
  scrapeGraph env src i s = Blocked (fetch_started i s).
Proof.
  destruct src as [lnd|host]; cbn [fetch_graph scrapeGraph]; intros H.
  - rewrite DescribeGraph_Background in H.
    destruct (latency _) as [l|] eqn:El; [discriminate|].
    apply poller_scrapeGraph_hung, El.
  - apply pktPoller_scrapeGraph_hung, H.
Qed.


(** *** The ticker and the loop *)

Lemma wrap64_small z : - 2 ^ 63 <= z < 2 ^ 63 → wrap64 z = z.
Proof. intros H. unfold wrap64. rewrite Z.mod_small; lia. Qed.

Lemma poll_period_seconds flags :
  0 < pollInterval flags <= max_poll_seconds →
  poll_period flags = pollInterval flags * 1000000000.
Proof.
  unfold max_poll_seconds, poll_period, Duration_mul, time_Second. intros H.
  rewrite (wrap64_small (pollInterval flags)) by lia.
  rewrite wrap64_small by lia. lia.
Qed.

Lemma time_NewTicker_positive d (s : PState) :
  0 < d →
  time_NewTicker _ d s =
  Done {| period := d |} {| nview := nview _ s; trace := trace _ s ++ [EvNewTicker d] |}.
Proof.
  intros H. unfold time_NewTicker.
  destruct (d <=? 0) eqn:E; [lia|reflexivity].
Qed.

Lemma run_poller_unfold env flags src n (s : PState) :
  run_poller env flags src n s =
  (_ ← scrapeGraph env src O;
   ticker ← time_NewTicker _ (poll_period flags);
   range_ticker _ (scrapeGraph env src) 1 n) s.
Proof. destruct src; reflexivity. Qed.

Lemma range_ticker_app scrape a b i (s : PState) :
  range_ticker _ scrape i (a + b) s =
  (_ ← range_ticker _ scrape i a; range_ticker _ scrape (i + a) b) s.
Proof.
  revert i s. induction a as [|a IH]; intros i s.
  - cbn. rewrite Nat.add_0_r. reflexivity.
  - cbn [Nat.add range_ticker]. unfold mbind, prog_bind in *. cbn.
    destruct (scrape i _) as [[] s1|msg s1|s1]; try reflexivity.
    rewrite IH. replace (S i + a)%nat with (i + S a)%nat by lia. reflexivity.
Qed.



(** C6 (ingestion).  After a successful fetch of a graph [g], one poll
    of either poller calls [AddNode] on its view exactly for the
    entries of [g.Nodes] that carry at least one address, in list
    order, and for no entry with zero addresses. *)
Theorem C6_upsert_exactly_the_addressed_entries
    env src i g (s : PState) :
  fetch_graph env src i = Done (Ok g) tt →
  ∃ s', scrapeGraph env src i s = Done tt s'
    ∧ addnode_calls (trace _ s') = addnode_calls (trace _ s) ++ admitted (Nodes g)
    ∧ nview _ s' = upsert_all (admitted (Nodes g)) (nview _ s)
    ∧ (∀ node, In node (admitted (Nodes g)) ↔
               In node (Nodes g) ∧ Addresses node ≠ []).
Proof.
  intros H.
  destruct (scrapeGraph_fetched env src i g s H) as (s' & Hrun & Hv & Hc & _).
  exists s'. repeat split; auto.
  - unfold admitted in *. apply List.filter_In in H0. tauto.
  - unfold admitted in *. apply List.filter_In in H0.
    destruct H0 as [_ H0]. unfold has_address in H0.
    destruct (Addresses node); [discriminate|congruence].
  - intros [Hin Hne]. unfold admitted. apply List.filter_In. split; [exact Hin|].
    unfold has_address. destruct (Addresses node); [congruence|reflexivity].
Qed.

Lemma run_poller_first_fetch_hung env flags src n (s : PState) :
  fetch_graph env src O = Blocked tt →
  run_poller env flags src n s = Blocked (fetch_started O s).
Proof.
  intros H. rewrite run_poller_unfold. unfold mbind, prog_bind.
  rewrite (scrapeGraph_hung env src O s H). reflexivity.
Qed.

(** C7, as amended (no timeout).  No fetch carries a deadline: the lnd
    fetch and the HTTP round trip return the peer's reply whatever its
    latency, and when the fetch of poll [k + 1] never returns, the
    poller stays blocked in that poll however many ticks go by, the
    view being as poll [k] left it. *)
Theorem C7_fetch_waits_without_timeout
    env flags src k sk (s : PState) :
  run_poller env flags src k s = Done tt sk →
  fetch_graph env src (S k) = Blocked tt →
  (∀ lnd i l, latency (lnd_DescribeGraph env (cc lnd) i) = Some l →
     fetch_graph env (LndSource lnd) i = Done (reply (lnd_DescribeGraph env (cc lnd) i)) tt)
  ∧ (∀ host i u l, url_Parse env (graph_url host) = Ok u →
       latency (http_RoundTrip env (graph_request u) i) = Some l →
       fetch_graph env (PktSource host) i =
       match reply (http_RoundTrip env (graph_request u) i) with
       | Error e => Done (Error e) tt
       | Ok resp => Done (unmarshal env resp true) tt
       end)
  ∧ ∀ n, (k < n)%nat →
      run_poller env flags src n s = Blocked (tick_fetch_started (S k) sk).
Proof.
  intros Hk Hhung. split; [|split].
  { intros lnd i l Hl. cbn. rewrite DescribeGraph_Background, Hl. reflexivity. }
  { intros host i u l Hu Hl. cbn [fetch_graph].
    rewrite (pktGetGraph_parsable env host i u tt Hu), Hl. reflexivity. }
  intros n Hn.
  rewrite run_poller_unfold in Hk |- *. unfold mbind, prog_bind in Hk |- *.
  destruct (scrapeGraph env src 0 s) as [[] s0|msg s0|s0]; try discriminate.
  destruct (time_NewTicker _ (poll_period flags) s0) as [tk s1|msg s1|s1]; try discriminate.
  replace n with (k + S (n - S k))%nat by lia.
  rewrite range_ticker_app. unfold mbind, prog_bind. rewrite Hk.
  cbn [range_ticker]. unfold mbind, prog_bind. cbn.
  replace (1 + k)%nat with (S k) by lia.
  rewrite (scrapeGraph_hung env src (S k) _ Hhung). reflexivity.
Qed.

End SeedFacts.

(** ** Start-up *)

Section MainFacts.

Variable NetworkView : Type.
Variable NewNetworkView : string -> NetworkView.

Local Abbreviation MState := (MainState NetworkView).
Local Abbreviation run_main := (main NetworkView NewNetworkView).

Lemma size_insert_nonzero (k : string) (v : ChainView) (m : gmap string ChainView) :
  (size (<[k:=v]> m) =? 0)%nat = false.
Proof.
  apply Nat.eqb_neq. intros H. apply map_size_empty_iff in H.
  by apply insert_non_empty in H.
Qed.

Lemma size_empty_zero : (size (∅ : gmap string ChainView) =? 0)%nat = true.
Proof. reflexivity. Qed.

Lemma nonempty_true s : nonempty s = true ↔ s ≠ ""%string.
Proof. unfold nonempty. rewrite negb_true_iff. apply String.eqb_neq. Qed.

Lemma gate_all_set h t m :
  nonempty h && nonempty t && nonempty m = true ↔ all_set h t m.
Proof. unfold all_set. rewrite !andb_true_iff, !nonempty_true. tauto. Qed.

(** What a successful [initLightningClient] has gone through: the
    certificate, the macaroon file, its decoding, the dial and the
    [GetInfo] probe. *)
Lemma initLightningClient_succeeded env h t m lnd :
  initLightningClient env h t m tt = Done (Ok lnd) tt →
  ∃ creds macBytes mac conn l,
    credentials_NewClientTLSFromFile env (cleanAndExpandPath env t) = Ok creds
    ∧ ioutil_ReadFile env (cleanAndExpandPath env m) = Ok macBytes
    ∧ macaroon_UnmarshalBinary env macBytes = Ok mac
    ∧ grpc_Dial env h [WithTransportCredentials creds; WithPerRPCCredentials mac;
                       maxMsgRecvSize] = Ok conn
    ∧ lnd = NewLightningClient conn
    ∧ latency (lnd_GetInfo env conn) = Some l
    ∧ reply (lnd_GetInfo env conn) = Ok tt.
Proof.
  unfold initLightningClient.
  destruct (credentials_NewClientTLSFromFile _ _) as [creds|] eqn:E1; [|discriminate].
  destruct (ioutil_ReadFile _ _) as [macBytes|] eqn:E2; [|discriminate].
  destruct (macaroon_UnmarshalBinary _ _) as [mac|] eqn:E3; [|discriminate].
  cbn [app].
  destruct (grpc_Dial _ _ _) as [conn|] eqn:E4; [|discriminate].
  unfold mbind, prog_bind. cbn [Deadline context_Background NewLightningClient cc].
  rewrite await_no_deadline.
  destruct (latency _) as [l|] eqn:E5; [|discriminate].
  destruct (reply _) as [[]|] eqn:E6; [|discriminate].
  intros H. inversion H. exists creds, macBytes, mac, conn, l.
  repeat split; auto.
Qed.

(** Running [main] symbolically: every gate and every outcome of
    [initLightningClient] is split in turn. *)
Ltac main_reduce :=
  cbv beta iota zeta delta
    [main configure mbind prog_bind mret prog_ret modify panic go log_Infof
     log_SetLevel seed_NewNetworkView at_state heap goroutines logLevel mlog
     btc_enabled ltc_enabled test_enabled pkt_enabled btc_init ltc_init test_init
     set_numResults set_authoritativeIP clear_bitcoin clear_litecoin clear_test
     listenAddrUDP listenAddrTCP bitcoinNodeHost litecoinNodeHost testNodeHost
     pktNodeHost bitcoinTLSPath litecoinTLSPath testTLSPath bitcoinMacPath
     litecoinMacPath testMacPath rootDomain authoritativeIP pollInterval debug
     numResults];
  rewrite ?size_insert_nonzero, ?size_empty_zero.

Ltac main_step :=
  match goal with
  | |- context [initLightningClient ?env ?h ?t ?m ?st] =>
      lazymatch st with
      | tt => fail
      | _ => rewrite (initLightningClient_at_state env h t m st);
             destruct (initLightningClient env h t m tt)
               as [[?lnd|?e] []|?msg []|[]] eqn:?Init
      end
  | |- context [if ?b then _ else _] => destruct b eqn:?Gate
  end; main_reduce.

Ltac main_cases flags := destruct flags; main_reduce; repeat main_step.

Ltac lookup_cases H :=
  repeat (let Hk := fresh "Hk" in
          let Hv := fresh "Hv" in
          let Hn := fresh "Hn" in
          let Hr := fresh "Hr" in
          apply lookup_insert_Some in H; destruct H as [[Hk Hv]|[Hn Hr]];
          [first [discriminate Hk | subst] | rename Hr into H]);
  try (rewrite lookup_empty in H; discriminate H).

Lemma main_ignores_http env flags parse rt dec (s : MState) :
  run_main (set_http parse rt dec env) flags s = run_main env flags s.
Proof. reflexivity. Qed.

Lemma main_no_chain env flags (s : MState) :
  btc_enabled flags = false → ltc_enabled flags = false →
  test_enabled flags = false → pkt_enabled flags = false →
  ∃ s', run_main env flags s = Panicked "must specify at least one node type" s'.
Proof. main_cases flags; intros; try discriminate; eauto. Qed.

Lemma main_serves_only_after_init env flags (s : MState) srv s' :
  run_main env flags s = Done srv s' →
  (btc_enabled flags = true → succeeded (btc_init env flags))
  ∧ (ltc_enabled flags = true → succeeded (ltc_init env flags))
  ∧ (test_enabled flags = true → succeeded (test_init env flags))
  ∧ btc_enabled flags || ltc_enabled flags || test_enabled flags || pkt_enabled flags = true.
Proof.
  unfold succeeded.
  main_cases flags; intros; try discriminate;
    repeat split; intros; try discriminate; eauto.
Qed.

Lemma main_btc_error env flags (s : MState) e :
  btc_enabled flags = true → btc_init env flags = Done (Error e) tt →
  ∃ s', run_main env flags s = Panicked ("unable to connect to btc lnd: " +:+ e) s'.
Proof. main_cases flags; intros; simplify_eq; eauto. Qed.

Lemma main_ltc_error env flags (s : MState) e :
  (btc_enabled flags = true → succeeded (btc_init env flags)) →
  ltc_enabled flags = true → ltc_init env flags = Done (Error e) tt →
  ∃ s', run_main env flags s = Panicked ("unable to connect to ltc lnd: " +:+ e) s'.
Proof.
  unfold succeeded.
  main_cases flags; intros Hb; intros; simplify_eq; eauto;
    destruct Hb as [? ?]; simplify_eq; eauto.
Qed.

Lemma main_test_error env flags (s : MState) e :
  (btc_enabled flags = true → succeeded (btc_init env flags)) →
  (ltc_enabled flags = true → succeeded (ltc_init env flags)) →
  test_enabled flags = true → test_init env flags = Done (Error e) tt →
  ∃ s', run_main env flags s = Panicked ("unable to connect to test lnd: " +:+ e) s'.
Proof.
  unfold succeeded.
  main_cases flags; intros Hb Hl; intros; simplify_eq; eauto;
    try (destruct Hb as [? ?]; simplify_eq; eauto);
    try (destruct Hl as [? ?]; simplify_eq; eauto).
Qed.

Lemma main_rootIP env flags ip (s : MState) srv s' :
  run_main env flags s = Done srv s' →
  run_main env (set_authoritativeIP ip flags) s =
  Done (set_rootIP (net_ParseIP env ip) srv) s'.
Proof. main_cases flags; intros; simplify_eq; reflexivity. Qed.

Lemma main_skips_bitcoin env flags (s : MState) :
  btc_enabled flags = false → run_main env flags s = run_main env (clear_bitcoin flags) s.
Proof.
  destruct flags. unfold btc_enabled. cbn. intros H. unfold main. cbn.
  rewrite H. reflexivity.
Qed.

Lemma main_skips_litecoin env flags (s : MState) :
  ltc_enabled flags = false → run_main env flags s = run_main env (clear_litecoin flags) s.
Proof.
  destruct flags. unfold ltc_enabled. cbn. intros H. unfold main. cbn.
  rewrite H. reflexivity.
Qed.

Lemma main_skips_test env flags (s : MState) :
  test_enabled flags = false → run_main env flags s = run_main env (clear_test flags) s.
Proof.
  destruct flags. unfold test_enabled. cbn. intros H. unfold main. cbn.
  rewrite H. reflexivity.
Qed.

(** C3 (results flag).  [main] never reads the results flag: whatever
    its value, start-up runs the same and hands the same arguments to
    [seed.NewDnsServer], none of which is a record count. *)
Theorem C3_results_flag_never_reaches_the_server env flags n (s : MState) :
  run_main env (set_numResults n flags) s = run_main env flags s.
Proof. reflexivity. Qed.

(** C4, as amended (start-up failures).  [main] panics when no chain
    is configured, and when the client of a configured lnd chain
    cannot be initialised, with a message naming the first such chain;
    it reaches [Serve] only after every configured lnd chain has been
    initialised.  The pkt chain is not probed: start-up is the same
    whatever the HTTP side answers. *)
Theorem C4_startup_failure_is_fatal_for_lnd_chains
    env flags parse rt dec (s : MState) :
  (btc_enabled flags = false → ltc_enabled flags = false →
   test_enabled flags = false → pkt_enabled flags = false →
   ∃ s', run_main env flags s = Panicked "must specify at least one node type" s')
  ∧ (∀ e, btc_enabled flags = true → btc_init env flags = Done (Error e) tt →
       ∃ s', run_main env flags s = Panicked ("unable to connect to btc lnd: " +:+ e) s')
  ∧ (∀ e, (btc_enabled flags = true → succeeded (btc_init env flags)) →
       ltc_enabled flags = true → ltc_init env flags = Done (Error e) tt →
       ∃ s', run_main env flags s = Panicked ("unable to connect to ltc lnd: " +:+ e) s')
  ∧ (∀ e, (btc_enabled flags = true → succeeded (btc_init env flags)) →
       (ltc_enabled flags = true → succeeded (ltc_init env flags)) →
       test_enabled flags = true → test_init env flags = Done (Error e) tt →
       ∃ s', run_main env flags s = Panicked ("unable to connect to test lnd: " +:+ e) s')
  ∧ (∀ srv s', run_main env flags s = Done srv s' →
       (btc_enabled flags = true → succeeded (btc_init env flags))
       ∧ (ltc_enabled flags = true → succeeded (ltc_init env flags))
       ∧ (test_enabled flags = true → succeeded (test_init env flags))
       ∧ btc_enabled flags || ltc_enabled flags || test_enabled flags
         || pkt_enabled flags = true)
  ∧ run_main (set_http parse rt dec env) flags s = run_main env flags s.
Proof.
  split; [apply main_no_chain|].
  split; [intros e; apply main_btc_error|].
  split; [intros e; apply main_ltc_error|].
  split; [intros e; apply main_test_error|].
  split; [intros srv s'; apply main_serves_only_after_init|].
  apply main_ignores_http.
Qed.

(** C8 (chain views).  When [main] reaches [Serve], the map handed to
    the DNS server has an entry under a prefix exactly when that chain
    is configured: [""] for bitcoin, ["ltc."] for litecoin, ["test."]
    for testnet, ["pkt."] for pkt, hence at most four.  Each entry
    points to a view of its own, created by [NewNetworkView] with the
    chain's name, and exactly one started goroutine feeds it: [poller]
    on the client the chain's [initLightningClient] returned, or
    [pktPoller] on the pkt host.  No other view is allocated, and
    besides the debug listener no other goroutine is started. *)
Theorem C8_chain_views_built_at_startup env flags srv s' :
  run_main env flags (initial_state NetworkView) = Done srv s' →
  (∀ prefix, chain_view_created prefix srv ↔ In prefix (enabled_prefixes flags))
  ∧ dom (chainViews srv) ⊆ {[""; "ltc."; "test."; "pkt."]}%string
  ∧ size (chainViews srv) = length (enabled_prefixes flags)
  ∧ (size (chainViews srv) ≤ 4)%nat
  ∧ length (heap _ s') = size (chainViews srv)
  ∧ length (goroutines _ s') = S (size (chainViews srv))
  ∧ (∀ prefix cv, chainViews srv !! prefix = Some cv →
       ∃ name g, chain_of_prefix prefix = Some name
         ∧ heap _ s' !! NetView cv = Some (NewNetworkView name)
         ∧ pollers_of (NetView cv) (goroutines _ s') = [g]
         ∧ poller_for env flags prefix (NetView cv) g)
  ∧ (∀ p1 p2 cv1 cv2,
       chainViews srv !! p1 = Some cv1 → chainViews srv !! p2 = Some cv2 →
       NetView cv1 = NetView cv2 → p1 = p2).
Proof.
  unfold enabled_prefixes, poller_for, chain_view_created.
  main_cases flags; intros H; simplify_eq; cbn;
  (split; [intros prefix; split;
           [intros [cv Hx]; lookup_cases Hx; auto 10
           |intros Hin; repeat (destruct Hin as [<-|Hin]; [vm_compute; eauto|]);
            destruct Hin]|]);
  (split; [rewrite ?dom_insert_L, ?dom_empty_L; apply elem_of_subseteq; intros x;
           rewrite ?elem_of_union, ?elem_of_singleton, ?elem_of_empty; tauto|]);
  (split; [vm_compute; reflexivity|]);
  (split; [vm_compute; lia|]);
  (split; [reflexivity|]);
  (split; [reflexivity|]);
  (split; [intros prefix cv H; lookup_cases H; eexists _, _;
           (split; [reflexivity|]); (split; [reflexivity|]); (split; [reflexivity|]);
           first [reflexivity | eexists; split; reflexivity]|]);
  intros p1 p2 cv1 cv2 H1 H2 Hp; lookup_cases H1; lookup_cases H2;
    solve [reflexivity | discriminate Hp].
Qed.

Ltac gate_goal Hx :=
  first
    [ reflexivity
    | discriminate Hx
    | solve [vm_compute; eauto]
    | solve [eexists; split; [reflexivity | vm_compute; discriminate]]
    | solve [destruct Hx as [cv Hx]; lookup_cases Hx]
    | solve [destruct Hx as (cv & Hx & _); lookup_cases Hx] ].

(** C9 (gating).  A chain whose three flags are not all set is skipped
    as if none of them were given.  When start-up reaches [Serve], the
    bitcoin, litecoin and testnet chains each have a view, and a poller
    feeding it, exactly when their three flags are all non-empty, and
    the pkt chain exactly when its host flag is non-empty. *)
Theorem C9_chain_created_iff_its_flags_are_set env flags srv s' :
  run_main env flags (initial_state NetworkView) = Done srv s' →
  ((chain_view_created "" srv ↔
      all_set (bitcoinNodeHost flags) (bitcoinTLSPath flags) (bitcoinMacPath flags))
   ∧ (chain_poller_started "" srv (goroutines _ s') ↔
      all_set (bitcoinNodeHost flags) (bitcoinTLSPath flags) (bitcoinMacPath flags)))
  ∧ ((chain_view_created "ltc." srv ↔
      all_set (litecoinNodeHost flags) (litecoinTLSPath flags) (litecoinMacPath flags))
   ∧ (chain_poller_started "ltc." srv (goroutines _ s') ↔
      all_set (litecoinNodeHost flags) (litecoinTLSPath flags) (litecoinMacPath flags)))
  ∧ ((chain_view_created "test." srv ↔
      all_set (testNodeHost flags) (testTLSPath flags) (testMacPath flags))
   ∧ (chain_poller_started "test." srv (goroutines _ s') ↔
      all_set (testNodeHost flags) (testTLSPath flags) (testMacPath flags)))
  ∧ ((chain_view_created "pkt." srv ↔ pktNodeHost flags ≠ ""%string)
   ∧ (chain_poller_started "pkt." srv (goroutines _ s') ↔ pktNodeHost flags ≠ ""%string))
  ∧ (∀ s, btc_enabled flags = false →
       run_main env flags s = run_main env (clear_bitcoin flags) s)
  ∧ (∀ s, ltc_enabled flags = false →
       run_main env flags s = run_main env (clear_litecoin flags) s)
  ∧ (∀ s, test_enabled flags = false →
       run_main env flags s = run_main env (clear_test flags) s).
Proof.
  intros Hrun.
  match goal with |- ?A ∧ ?B ∧ ?C ∧ ?D ∧ _ =>
    assert (A ∧ B ∧ C ∧ D) as (Ha & Hb & Hc & Hd) end.
  { revert Hrun.
    rewrite <- !gate_all_set, <- nonempty_true.
    unfold chain_view_created, chain_poller_started.
    main_cases flags; intros H; simplify_eq; cbn [chainViews NewDnsServer goroutines];
      repeat split; intros Hx; gate_goal Hx. }
  repeat (split; [assumption|]).
  repeat split; intros s0.
  - apply main_skips_bitcoin.
  - apply main_skips_litecoin.
  - apply main_skips_test.
Qed.

(** C10 (unparseable root-ip).  The value of the root-ip flag has no
    part in whether start-up succeeds: if start-up reaches [Serve],
    it also does with a root-ip that [net.ParseIP] rejects, other
    flags unchanged, and the server is then built with a nil
    authoritative IP. *)
Theorem C10_unparseable_root_ip_gives_nil_ip env flags bad (s : MState) srv s' :
  net_ParseIP env bad = None →
  run_main env flags s = Done srv s' →
  run_main env (set_authoritativeIP bad flags) s = Done (set_rootIP None srv) s'
  ∧ srvRootIP (set_rootIP None srv) = None.
Proof.
  intros Hbad Hrun. split; [|reflexivity].
  rewrite <- Hbad. apply main_rootIP, Hrun.
Qed.

End MainFacts.

(** ** The program on explicit inputs *)

(** C1 (fetch failure without crash).  With the pkt host given as
    [127.0.0.1:8080], the graph URL does not parse, [http.NewRequest]
    returns a nil request, and [pktGetGraph] panics on it instead of
    returning the error: the poll, and with it the poller, crashes. *)
Theorem C1_pktGetGraph_panics_on_request_error (s : PollerState Registry) :
  url_Parse env_up (graph_url pkt_host_port)
    = Error "first path segment in URL cannot contain colon"%string
  ∧ pktGetGraph env_up pkt_host_port 0 s = Panicked nil_dereference s
  ∧ pktPoller_scrapeGraph Registry Registry_AddNode env_up pkt_host_port 0 s
    = Panicked nil_dereference (fetch_started Registry 0 s)
  ∧ ∀ n, pktPoller Registry Registry_AddNode env_up default_flags pkt_host_port n s
         = Panicked nil_dereference (fetch_started Registry 0 s).
Proof. repeat split; intros; reflexivity. Qed.

(** C2 (fetch failure logged).  When the backing node refuses the
    connection, the lnd poller ends the poll with the view unchanged
    and without any log call, whereas the pkt poller logs the error. *)
Theorem C2_lnd_poller_does_not_log_fetch_error (s : PollerState Registry) :
  fetch_graph env_down (LndSource sample_lnd) 0 = Done (Error "connection refused"%string) tt
  ∧ poller_scrapeGraph Registry Registry_AddNode env_down sample_lnd 0 s
    = Done tt {| nview := nview _ s; trace := trace _ s ++ [EvFetch 0] |}
  ∧ error_logs (trace _ s ++ [EvFetch 0]) = error_logs (trace _ s)
  ∧ pktPoller_scrapeGraph Registry Registry_AddNode env_down pkt_url 0 s
    = Done tt {| nview := nview _ s;
                 trace := (trace _ s ++ [EvFetch 0])
                          ++ [EvLog ErrorLevel "Error getting node graph: {}"
                                [ArgErr "connection refused"]] |}.
Proof.
  repeat split; try reflexivity.
  unfold error_logs. rewrite List.filter_app. cbn. apply app_nil_r.
Qed.

(** C4, the claim as stated fails: with only the pkt chain configured
    and its node refusing every connection, the start-up fetch fails
    and [main] still reaches [Serve], with the pkt chain in the map. *)
Lemma C4_pkt_unreachable_at_launch_still_serves :
  fetch_graph env_down (PktSource pkt_url) 0 = Done (Error "connection refused"%string) tt
  ∧ ∃ srv s',
      main Registry Registry_New env_down flags_pkt_only (initial_state Registry)
        = Done srv s'
      ∧ chain_view_created "pkt." srv.
Proof.
  split; [reflexivity|].
  destruct (main Registry Registry_New env_down flags_pkt_only (initial_state Registry))
    as [srv s'|msg s'|s'] eqn:E; vm_compute in E; simplify_eq.
  eexists _, _. split; [reflexivity|]. vm_compute. eauto.
Qed.

Lemma C4_lnd_unreachable_at_launch_panics :
  ∃ s', main Registry Registry_New env_down flags_btc_pkt (initial_state Registry)
        = Panicked "unable to connect to btc lnd: connection refused" s'.
Proof.
  apply (proj1 (proj2 (C4_startup_failure_is_fatal_for_lnd_chains
           Registry Registry_New env_down flags_btc_pkt go_url_Parse
           (λ _ _, never) (λ _, Error "no payload"%string) (initial_state Registry)))
         "connection refused"%string); reflexivity.
Defined.


Lemma C6_sample_graph_ingested :
  ∃ s', scrapeGraph Registry Registry_AddNode env_up (LndSource sample_lnd) 0 empty_poller
          = Done tt s'
    ∧ addnode_calls (trace _ s') = [alice; carol].
Proof.
  destruct (C6_upsert_exactly_the_addressed_entries Registry Registry_AddNode
              env_up (LndSource sample_lnd) 0%nat sample_graph empty_poller)
    as (s' & Hrun & Hc & _); [reflexivity|].
  exists s'. split; [exact Hrun|]. rewrite Hc. reflexivity.
Defined.

(** C7, the claim as stated fails: when the backing node stops
    answering, the fetch of poll 1 never returns; the poll is not
    abandoned as a failed tick, and the poller is in the same blocked
    state after one tick and after two. *)
Lemma C7_silent_node_blocks_the_poller :
  scrapeGraph Registry Registry_AddNode env_silent (LndSource sample_lnd) 1 empty_poller
    = Blocked (fetch_started Registry 1 empty_poller)
  ∧ scrapeGraph Registry Registry_AddNode env_silent (PktSource pkt_url) 1 empty_poller
    = Blocked (fetch_started Registry 1 empty_poller)
  ∧ ∃ s', poller Registry Registry_AddNode env_silent default_flags sample_lnd 1 empty_poller
            = Blocked s'
        ∧ poller Registry Registry_AddNode env_silent default_flags sample_lnd 2 empty_poller
            = Blocked s'.
Proof.
  split; [reflexivity|]. split; [reflexivity|].
  eexists. split; [reflexivity|]. vm_compute. reflexivity.
Qed.

Lemma C7_silent_node_after_first_poll :
  ∃ sk, run_poller Registry Registry_AddNode env_silent default_flags
          (LndSource sample_lnd) 0 empty_poller = Done tt sk
    ∧ ∀ n, (0 < n)%nat →
        run_poller Registry Registry_AddNode env_silent default_flags
          (LndSource sample_lnd) n empty_poller
        = Blocked (tick_fetch_started Registry 1 sk).
Proof.
  destruct (run_poller Registry Registry_AddNode env_silent default_flags
              (LndSource sample_lnd) 0 empty_poller) as [[] sk|msg sk|sk] eqn:E;
    [|vm_compute in E; discriminate E..].
  exists sk. split; [reflexivity|].
  apply (proj2 (proj2 (C7_fetch_waits_without_timeout Registry Registry_AddNode
                  env_silent default_flags (LndSource sample_lnd) 0%nat sk empty_poller
                  E eq_refl))).
Defined.

Lemma C8_two_chains_configured :
  ∃ srv s', main Registry Registry_New env_up flags_btc_pkt (initial_state Registry)
            = Done srv s'
    ∧ chain_view_created "" srv
    ∧ chain_view_created "pkt." srv
    ∧ ¬ chain_view_created "ltc." srv
    ∧ size (chainViews srv) = 2%nat
    ∧ length (goroutines _ s') = 3%nat.
Proof.
  destruct (main Registry Registry_New env_up flags_btc_pkt (initial_state Registry))
    as [srv s'|msg s'|s'] eqn:E; [|vm_compute in E; discriminate E..].
  exists srv, s'. split; [reflexivity|].
  destruct (C8_chain_views_built_at_startup Registry Registry_New
              env_up flags_btc_pkt srv s' E) as (Hin & _ & Hsz & _ & _ & Hg & _).
  split; [apply Hin; vm_compute; auto|].
  split; [apply Hin; vm_compute; auto|].
  split.
  - intros Hc. apply Hin in Hc. vm_compute in Hc.
    destruct Hc as [Hc|[Hc|[]]]; discriminate Hc.
  - rewrite Hg, Hsz. split; reflexivity.
Defined.

Lemma C9_partial_bitcoin_is_skipped :
  ∃ srv s', main Registry Registry_New env_up flags_btc_partial (initial_state Registry)
            = Done srv s'
    ∧ ¬ chain_view_created "" srv
    ∧ chain_view_created "pkt." srv
    ∧ chain_poller_started "pkt." srv (goroutines _ s').
Proof.
  destruct (main Registry Registry_New env_up flags_btc_partial (initial_state Registry))
    as [srv s'|msg s'|s'] eqn:E; [|vm_compute in E; discriminate E..].
  exists srv, s'. split; [reflexivity|].
  destruct (C9_chain_created_iff_its_flags_are_set Registry Registry_New
              env_up flags_btc_partial srv s' E)
    as ((Hb & _) & _ & _ & (Hp1 & Hp2) & _).
  split; [|split].
  - intros Hc. apply Hb in Hc. destruct Hc as (_ & Ht & _). apply Ht. reflexivity.
  - apply Hp1. discriminate.
  - apply Hp2. discriminate.
Defined.

Lemma C10_root_ip_not_an_address :
  net_ParseIP env_up "not-an-ip" = None
  ∧ ∃ srv s',
      main Registry Registry_New env_up (set_authoritativeIP "not-an-ip" flags_pkt_only)
        (initial_state Registry) = Done srv s'
      ∧ srvRootIP srv = None.
Proof.
  split; [reflexivity|].
  destruct (main Registry Registry_New env_up flags_pkt_only (initial_state Registry))
    as [srv s'|msg s'|s'] eqn:E; [|vm_compute in E; discriminate E..].
  destruct (C10_unparseable_root_ip_gives_nil_ip Registry Registry_New
              env_up flags_pkt_only "not-an-ip"%string (initial_state Registry) srv s'
              eq_refl E) as [Hrun Hip].
  exists (set_rootIP None srv), s'. split; assumption.
Defined.

(** ** Further properties of the code *)

(** ** Paths and the lnd client *)

Lemma strings_Replace1_unfold old new s :
  strings_Replace1 old new s =
  if String.prefix old s
  then new +:+ String.substring (String.length old) (String.length s) s
  else match s with
       | EmptyString => s
       | String c s' => String c (strings_Replace1 old new s')
       end.
Proof. destruct s; reflexivity. Qed.

Lemma prefix_append old rest : String.prefix old (old +:+ rest) = true.
Proof.
  induction old as [|c old IH]; [destruct rest; reflexivity|].
  change (match Ascii.ascii_dec c c with
          | left _ => String.prefix old (old +:+ rest)
          | right _ => false
          end = true).
  destruct (Ascii.ascii_dec c c); [exact IH|congruence].
Qed.

Lemma substring_all s m : (String.length s <= m)%nat → String.substring 0 m s = s.
Proof.
  revert m. induction s as [|c s IH]; intros m Hm.
  - destruct m; reflexivity.
  - destruct m; cbn in *; [lia|]. rewrite IH by lia. reflexivity.
Qed.

Lemma substring_skip old rest m :
  String.substring (String.length old) m (old +:+ rest) = String.substring 0 m rest.
Proof.
  induction old as [|c old IH]; [reflexivity|].
  change (String.substring (String.length old) m (old +:+ rest) = String.substring 0 m rest).
  exact IH.
Qed.

Lemma length_append_ge old rest : (String.length rest <= String.length (old +:+ rest))%nat.
Proof.
  induction old as [|c old IH]; [reflexivity|].
  change (String.length rest <= S (String.length (old +:+ rest)))%nat. lia.
Qed.

Lemma strings_Replace1_prefix old new rest :
  strings_Replace1 old new (old +:+ rest) = new +:+ rest.
Proof.
  rewrite strings_Replace1_unfold, prefix_append, substring_skip.
  rewrite substring_all by apply length_append_ge. reflexivity.
Qed.

(** X1.  [cleanAndExpandPath] replaces a leading [~], and only that
    one, by the parent directory of lnd's data directory, then expands
    environment variables and cleans; a path that does not start with
    [~] is only expanded and cleaned. *)
Theorem X1_cleanAndExpandPath_expands_leading_tilde env :
  (∀ rest, cleanAndExpandPath env ("~" +:+ rest) =
           filepath_Clean env (os_ExpandEnv env (filepath_Dir env (lndHomeDir env) +:+ rest)))
  ∧ (∀ path, String.prefix "~" path = false →
             cleanAndExpandPath env path = filepath_Clean env (os_ExpandEnv env path)).
Proof.
  split.
  - intros rest. unfold cleanAndExpandPath.
    rewrite prefix_append, strings_Replace1_prefix. reflexivity.
  - intros path H. unfold cleanAndExpandPath. rewrite H. reflexivity.
Qed.

Lemma initLightningClient_dialed {S} env h t m conn (s : S) :
  dialed env h t m conn →
  initLightningClient env h t m s =
  match latency (lnd_GetInfo env conn) with
  | None => Blocked s
  | Some _ =>
    match reply (lnd_GetInfo env conn) with
    | Ok _ => Done (Ok (NewLightningClient conn)) s
    | Error e => Done (Error e) s
    end
  end.
Proof.
  intros (creds & macBytes & mac & H1 & H2 & H3 & H4).
  unfold initLightningClient. rewrite H1, H2, H3. cbn [app]. rewrite H4.
  unfold mbind, prog_bind. cbn [Deadline context_Background NewLightningClient cc].
  rewrite await_no_deadline.
  destruct (latency _); [|reflexivity]. destruct (reply _); reflexivity.
Qed.

Lemma initLightningClient_not_dialed {S} env h t m (s : S) :
  (∀ conn, ¬ dialed env h t m conn) →
  ∃ e, initLightningClient env h t m s = Done (Error e) s
    ∧ ((∃ e0, credentials_NewClientTLSFromFile env (cleanAndExpandPath env t) = Error e0
              ∧ e = ("unable to read cert file: " +:+ e0)%string)
       ∨ (∃ creds, credentials_NewClientTLSFromFile env (cleanAndExpandPath env t) = Ok creds
              ∧ ioutil_ReadFile env (cleanAndExpandPath env m) = Error e)
       ∨ (∃ creds macBytes,
              credentials_NewClientTLSFromFile env (cleanAndExpandPath env t) = Ok creds
              ∧ ioutil_ReadFile env (cleanAndExpandPath env m) = Ok macBytes
              ∧ macaroon_UnmarshalBinary env macBytes = Error e)
       ∨ (∃ creds macBytes mac e0,
              credentials_NewClientTLSFromFile env (cleanAndExpandPath env t) = Ok creds
              ∧ ioutil_ReadFile env (cleanAndExpandPath env m) = Ok macBytes
              ∧ macaroon_UnmarshalBinary env macBytes = Ok mac
              ∧ grpc_Dial env h [WithTransportCredentials creds; WithPerRPCCredentials mac;
                                 maxMsgRecvSize] = Error e0
              ∧ e = fmt_Errorf_extra "unable to dial to lnd's gRPC server: " e0)).
Proof.
  intros Hnd. unfold initLightningClient.
  destruct (credentials_NewClientTLSFromFile _ _) as [creds|e1] eqn:E1.
  2: { eexists; split; [reflexivity|]. left. eauto. }
  destruct (ioutil_ReadFile _ _) as [macBytes|e2] eqn:E2.
  2: { eexists; split; [reflexivity|]. right; left. eauto. }
  destruct (macaroon_UnmarshalBinary _ _) as [mac|e3] eqn:E3.
  2: { eexists; split; [reflexivity|]. right; right; left. eauto. }
  cbn [app].
  destruct (grpc_Dial _ _ _) as [conn|e4] eqn:E4.
  2: { eexists; split; [reflexivity|]. right; right; right. eauto 10. }
  exfalso. apply (Hnd conn). exists creds, macBytes, mac. auto.
Qed.

Lemma dialed_functional env h t m conn conn' :
  dialed env h t m conn → dialed env h t m conn' → conn = conn'.
Proof.
  intros (c1 & b1 & m1 & A1 & A2 & A3 & A4) (c2 & b2 & m2 & B1 & B2 & B3 & B4).
  congruence.
Qed.

Lemma dialed_dec env h t m : (∃ conn, dialed env h t m conn) ∨ (∀ conn, ¬ dialed env h t m conn).
Proof.
  unfold dialed.
  destruct (credentials_NewClientTLSFromFile _ _) as [creds|e1] eqn:E1.
  2: { right. intros conn (c & b & mc & H & _). discriminate. }
  destruct (ioutil_ReadFile _ _) as [macBytes|e2] eqn:E2.
  2: { right. intros conn (c & b & mc & _ & H & _). discriminate. }
  destruct (macaroon_UnmarshalBinary env macBytes) as [mac|e3] eqn:E3.
  2: { right. intros conn (c & b & mc & _ & H1 & H2 & _). congruence. }
  destruct (grpc_Dial env h [WithTransportCredentials creds; WithPerRPCCredentials mac;
                             maxMsgRecvSize]) as [conn|e4] eqn:E4.
  2: { right. intros conn (c & b & mc & H0 & H1 & H2 & H3). congruence. }
  left. exists conn, creds, macBytes, mac. auto.
Qed.

(** X2.  [initLightningClient] returns a client exactly when the
    certificate, the macaroon file, its decoding and the dial (with the
    TLS, macaroon and receive-size options, in that order) succeed and
    the [GetInfo] probe is answered without error; the client is the
    one built on the dialed connection. *)
Theorem X2_initLightningClient_succeeds_iff {S} env h t m lnd (s s' : S) :
  initLightningClient env h t m s = Done (Ok lnd) s' ↔
  s' = s ∧ ∃ conn l, dialed env h t m conn ∧ lnd = NewLightningClient conn
                   ∧ latency (lnd_GetInfo env conn) = Some l
                   ∧ reply (lnd_GetInfo env conn) = Ok tt.
Proof.
  split.
  - intros H. destruct (dialed_dec env h t m) as [[conn Hd]|Hnd].
    + rewrite (initLightningClient_dialed env h t m conn s Hd) in H.
      destruct (latency _) as [l|] eqn:El; [|discriminate].
      destruct (reply _) as [[]|e] eqn:Er; [|discriminate].
      inversion H. split; [reflexivity|]. exists conn, l. auto.
    + destruct (initLightningClient_not_dialed env h t m s Hnd) as (e & He & _).
      congruence.
  - intros (-> & conn & l & Hd & -> & Hl & Hr).
    rewrite (initLightningClient_dialed env h t m conn s Hd), Hl, Hr. reflexivity.
Qed.

(** X4.  [initLightningClient] never panics, and it blocks exactly
    when the connection was dialed and the [GetInfo] probe, issued
    without a deadline, is never answered. *)
Theorem X4_initLightningClient_blocks_iff_probe_hangs {S} env h t m (s : S) :
  (∀ msg s', initLightningClient env h t m s ≠ Panicked msg s')
  ∧ (∀ s', initLightningClient env h t m s = Blocked s' ↔
       s' = s ∧ ∃ conn, dialed env h t m conn ∧ latency (lnd_GetInfo env conn) = None).
Proof.
  destruct (dialed_dec env h t m) as [[conn Hd]|Hnd].
  - rewrite (initLightningClient_dialed env h t m conn s Hd). split.
    + intros msg s'. destruct (latency _); [destruct (reply _)|]; discriminate.
    + intros s'. split.
      * destruct (latency _) eqn:El; [destruct (reply _); discriminate|].
        intros H. inversion H. split; [reflexivity|]. exists conn. auto.
      * intros (-> & conn' & Hd' & Hl).
        rewrite (dialed_functional _ _ _ _ _ _ Hd Hd'), Hl. reflexivity.
  - destruct (initLightningClient_not_dialed env h t m s Hnd) as (e & He & _).
    rewrite He. split; [discriminate|].
    intros s'. split; [discriminate|].
    intros (_ & conn & Hd & _). destruct (Hnd conn Hd).
Qed.

(** X3.  An error returned by [initLightningClient] is that of the
    first step that failed: the certificate error prefixed with
    "unable to read cert file: ", the macaroon read or decoding error
    as it is, the dial error appended to its verb-less format, or the
    error of the [GetInfo] probe as it is. *)
Theorem X3_initLightningClient_error_causes {S} env h t m e (s s' : S) :
  initLightningClient env h t m s = Done (Error e) s' →
  s' = s
  ∧ ((∃ e0, credentials_NewClientTLSFromFile env (cleanAndExpandPath env t) = Error e0
            ∧ e = ("unable to read cert file: " +:+ e0)%string)
     ∨ (∃ creds, credentials_NewClientTLSFromFile env (cleanAndExpandPath env t) = Ok creds
            ∧ ioutil_ReadFile env (cleanAndExpandPath env m) = Error e)
     ∨ (∃ creds macBytes,
            credentials_NewClientTLSFromFile env (cleanAndExpandPath env t) = Ok creds
            ∧ ioutil_ReadFile env (cleanAndExpandPath env m) = Ok macBytes
            ∧ macaroon_UnmarshalBinary env macBytes = Error e)
     ∨ (∃ creds macBytes mac e0,
            credentials_NewClientTLSFromFile env (cleanAndExpandPath env t) = Ok creds
            ∧ ioutil_ReadFile env (cleanAndExpandPath env m) = Ok macBytes
            ∧ macaroon_UnmarshalBinary env macBytes = Ok mac
            ∧ grpc_Dial env h [WithTransportCredentials creds; WithPerRPCCredentials mac;
                               maxMsgRecvSize] = Error e0
            ∧ e = fmt_Errorf_extra "unable to dial to lnd's gRPC server: " e0)
     ∨ (∃ conn l, dialed env h t m conn
            ∧ latency (lnd_GetInfo env conn) = Some l
            ∧ reply (lnd_GetInfo env conn) = Error e)).
Proof.
  intros H. destruct (dialed_dec env h t m) as [[conn Hd]|Hnd].
  - rewrite (initLightningClient_dialed env h t m conn s Hd) in H.
    destruct (latency _) as [l|] eqn:El; [|discriminate].
    destruct (reply _) as [[]|e'] eqn:Er; [discriminate|].
    inversion H; subst. split; [reflexivity|]. do 4 right. exists conn, l. auto.
  - destruct (initLightningClient_not_dialed env h t m s Hnd) as (e' & He & Hc).
    rewrite He in H. inversion H; subst. split; [reflexivity|].
    destruct Hc as [Hc|[Hc|[Hc|Hc]]]; auto.
Qed.

(** ** The pkt fetch *)

(** X5.  [pktGetGraph] panics exactly when the graph URL built from
    the host does not parse, and then with a nil dereference; whatever
    its outcome, it leaves the caller's state as it was. *)
Theorem X5_pktGetGraph_panics_iff_url_unparsable {S} env host i (s : S) :
  (∀ msg s', pktGetGraph env host i s = Panicked msg s' ↔
     (∃ e, url_Parse env (graph_url host) = Error e) ∧ msg = nil_dereference ∧ s' = s)
  ∧ final_state (pktGetGraph env host i s) = s.
Proof.
  destruct (url_Parse env (graph_url host)) as [u|e] eqn:E.
  - rewrite (pktGetGraph_parsable env host i u s E). split.
    + intros msg s'. split.
      * destruct (latency _); [destruct (reply _)|]; discriminate.
      * intros [[e He] _]. discriminate.
    + destruct (latency _); [destruct (reply _)|]; reflexivity.
  - rewrite (pktGetGraph_unparsable env host i e s E). split; [|reflexivity].
    intros msg s'. split.
    + intros H. inversion H. eauto.
    + intros (_ & -> & ->). reflexivity.
Qed.

(** X6.  [pktGetGraph] never looks at the HTTP status code: the
    body of any response is decoded, so rewriting the status codes of
    all responses changes nothing. *)
Theorem X6_pktGetGraph_ignores_status_code {S} env f host i (s : S) :
  pktGetGraph (with_status f env) host i s = pktGetGraph env host i s.
Proof.
  destruct (url_Parse env (graph_url host)) as [u|e] eqn:E.
  - rewrite (pktGetGraph_parsable env host i u s E).
    rewrite (pktGetGraph_parsable (with_status f env) host i u s E).
    cbn [with_status http_RoundTrip latency reply].
    destruct (latency _); [|reflexivity].
    destruct (reply _); reflexivity.
  - rewrite (pktGetGraph_unparsable env host i e s E).
    apply (pktGetGraph_unparsable (with_status f env) host i e s E).
Qed.

(** ** The ticker period *)

Lemma wrap64_range z : - 2 ^ 63 <= wrap64 z < 2 ^ 63.
Proof.
  unfold wrap64. pose proof (Z.mod_pos_bound (z + 2 ^ 63) (2 ^ 64)). lia.
Qed.

(** X7.  For a positive poll interval of [p] seconds (a 64-bit int),
    the ticker period is [p] seconds exactly when [p] is at most
    9223372036; above that the nanosecond product wraps. *)
Theorem X7_poll_period_exact_iff_in_range flags :
  0 < pollInterval flags < 2 ^ 63 →
  (poll_period flags = pollInterval flags * time_Second ↔
   pollInterval flags <= max_poll_seconds).
Proof.
  intros Hp. split.
  - intros H. pose proof (wrap64_range (time_Second * wrap64 (pollInterval flags))) as Hr.
    unfold poll_period, Duration_mul in H. rewrite H in Hr.
    unfold max_poll_seconds, time_Second in *. lia.
  - intros H. apply poll_period_seconds. lia.
Qed.

Section PollerRuns.

Variable NetworkView : Type.
Variable AddNode : LightningNode -> NetworkView -> NetworkView * option error.

Local Abbreviation PState := (PollerState NetworkView).
Local Abbreviation poll := (scrapeGraph NetworkView AddNode).
Local Abbreviation run := (run_poller NetworkView AddNode).

Lemma scrapeGraph_ingests env src i r (s : PState) :
  fetch_graph env src i = Done r tt →
  ∃ s', poll env src i s = Done tt s' ∧ nview _ s' = ingest _ AddNode r (nview _ s).
Proof.
  destruct r as [g|e]; intros H.
  - destruct (scrapeGraph_fetched _ AddNode env src i g s H) as (s' & ? & ? & _). eauto.
  - destruct (scrapeGraph_failed _ AddNode env src i e s H) as (s' & ? & ? & _). eauto.
Qed.

Lemma range_ticker_view env src replies n : ∀ i (s : PState),
  (∀ k, fetch_graph env src k = Done (replies k) tt) →
  ∃ s', range_ticker _ (poll env src) i n s = Done tt s'
    ∧ nview _ s' = fold_left (λ v k, ingest _ AddNode (replies k) v) (seq i n) (nview _ s).
Proof.
  induction n as [|n IH]; intros i s Hret.
  - exists s. auto.
  - cbn [range_ticker]. unfold mbind, prog_bind. cbn [emit modify].
    match goal with |- context [poll env src i ?s0] =>
      destruct (scrapeGraph_ingests env src i (replies i) s0 (Hret i)) as (s1 & Hrun & Hv) end.
    rewrite Hrun.
    destruct (IH (S i) s1 Hret) as (s' & Hrun' & Hv').
    exists s'. split; [exact Hrun'|]. rewrite Hv', Hv. reflexivity.
Qed.

(** X8.  With a poll interval in range and every fetch returning,
    the view after the start-up poll and [n] ticks is the initial view
    with the polls applied in order: a successful fetch upserts its
    addressed entries, a failed one changes nothing. *)
Theorem X8_view_after_polls env flags src replies n (s : PState) :
  0 < pollInterval flags <= max_poll_seconds →
  (∀ k, fetch_graph env src k = Done (replies k) tt) →
  ∃ s', run env flags src n s = Done tt s'
    ∧ nview _ s' = view_after _ AddNode replies (S n) (nview _ s).
Proof.
  intros Hp Hret.
  pose proof (poll_period_seconds flags Hp) as Hperiod.
  rewrite run_poller_unfold. unfold mbind, prog_bind.
  destruct (scrapeGraph_ingests env src O (replies O) s (Hret O)) as (s0 & Hrun0 & Hv0).
  rewrite Hrun0, time_NewTicker_positive by lia.
  match goal with |- context [range_ticker _ _ 1 n ?s1] =>
    destruct (range_ticker_view env src replies n 1 s1 Hret) as (s' & Hrun & Hv) end.
  exists s'. split; [exact Hrun|].
  rewrite Hv. cbn [nview]. rewrite Hv0. unfold view_after.
  change (seq 0 (S n)) with (0%nat :: seq 1 n). reflexivity.
Qed.

(** X9.  With a poll interval of zero or less (down to
    -9223372036), a poller whose start-up fetch returns completes that
    poll and then panics in [time.NewTicker], however long it is
    observed. *)
Theorem X9_nonpositive_interval_panics_after_first_poll env flags src r (s : PState) :
  - max_poll_seconds <= pollInterval flags <= 0 →
  fetch_graph env src O = Done r tt →
  ∃ s0, poll env src O s = Done tt s0
    ∧ nview _ s0 = ingest _ AddNode r (nview _ s)
    ∧ ∀ n, run env flags src n s = Panicked ticker_panic s0.
Proof.
  intros Hp Hr.
  destruct (scrapeGraph_ingests env src O r s Hr) as (s0 & Hrun0 & Hv0).
  exists s0. split; [exact Hrun0|]. split; [exact Hv0|].
  intros n. rewrite run_poller_unfold. unfold mbind, prog_bind. rewrite Hrun0.
  unfold time_NewTicker.
  assert (Hle : poll_period flags <= 0).
  { unfold poll_period, Duration_mul, time_Second, max_poll_seconds in *.
    rewrite (wrap64_small (pollInterval flags)) by lia.
    rewrite wrap64_small by lia. lia. }
  destruct (poll_period flags <=? 0) eqn:E; [reflexivity|lia].
Qed.

Lemma admitted_nil nodes :
  (∀ node, In node nodes → Addresses node = []) → admitted nodes = [].
Proof.
  induction nodes as [|node rest IH]; intros Hall; [reflexivity|].
  unfold admitted. cbn [List.filter]. unfold has_address at 1.
  rewrite (Hall node) by (left; reflexivity). cbn.
  apply IH. intros n' Hn'. apply Hall. right. exact Hn'.
Qed.

(** X10.  A fetched graph none of whose entries has an address
    leaves the view untouched: the poll makes no [AddNode] call. *)
Theorem X10_addressless_graph_leaves_view env src i g (s : PState) :
  (∀ node, In node (Nodes g) → Addresses node = []) →
  fetch_graph env src i = Done (Ok g) tt →
  ∃ s', poll env src i s = Done tt s'
    ∧ nview _ s' = nview _ s
    ∧ addnode_calls (trace _ s') = addnode_calls (trace _ s).
Proof.
  intros Hall H.
  destruct (scrapeGraph_fetched _ AddNode env src i g s H) as (s' & Hrun & Hv & Hc & _).
  rewrite (admitted_nil (Nodes g) Hall) in Hv, Hc. exists s'. split; [exact Hrun|]. split; [exact Hv|].
  rewrite Hc. apply app_nil_r.
Qed.

(** The lnd poller never logs at error level. *)
Lemma poller_scrapeGraph_no_error_log env lnd i (s : PState) :
  error_logs (trace _ (final_state (poller_scrapeGraph _ AddNode env lnd i s)))
  = error_logs (trace _ s).
Proof.
  assert (Hstart : error_logs (trace _ (fetch_started _ i s)) = error_logs (trace _ s)).
  { cbn. unfold error_logs. rewrite List.filter_app. cbn. apply app_nil_r. }
  destruct (latency (lnd_DescribeGraph env (cc lnd) i)) as [l|] eqn:El.
  - destruct (reply (lnd_DescribeGraph env (cc lnd) i)) as [g|e] eqn:Er.
    + destruct (poller_scrapeGraph_fetched _ AddNode env lnd i l g s El Er)
        as (s' & Hrun & _ & _ & _ & He).
      rewrite Hrun. exact He.
    + rewrite (poller_scrapeGraph_failed _ AddNode env lnd i l e s El Er). exact Hstart.
  - rewrite (poller_scrapeGraph_hung _ AddNode env lnd i s El). exact Hstart.
Qed.

Lemma range_ticker_no_error_log env lnd n : ∀ i (s : PState),
  error_logs (trace _ (final_state
     (range_ticker _ (poller_scrapeGraph _ AddNode env lnd) i n s)))
  = error_logs (trace _ s).
Proof.
  induction n as [|n IH]; intros i s; [reflexivity|].
  cbn [range_ticker]. unfold mbind, prog_bind. cbn [emit modify].
  match goal with |- context [poller_scrapeGraph _ _ env lnd i ?s0] =>
    pose proof (poller_scrapeGraph_no_error_log env lnd i s0) as H; set (s1 := s0) in * end.
  assert (Hs1 : error_logs (trace _ s1) = error_logs (trace _ s)).
  { subst s1. cbn. unfold error_logs. rewrite List.filter_app. cbn. apply app_nil_r. }
  destruct (poller_scrapeGraph _ AddNode env lnd i s1) as [[] s2|msg s2|s2];
    cbn [final_state] in H |- *; [rewrite IH|..]; congruence.
Qed.

(** X11.  The lnd poller never logs at error level: whatever the
    fetches do and however the run ends, the error-level entries of
    the log are those it started with. *)
Theorem X11_lnd_poller_never_logs_errors env flags lnd n (s : PState) :
  error_logs (trace _ (final_state (poller _ AddNode env flags lnd n s)))
  = error_logs (trace _ s).
Proof.
  unfold poller, mbind, prog_bind.
  pose proof (poller_scrapeGraph_no_error_log env lnd O s) as H0.
  destruct (poller_scrapeGraph _ AddNode env lnd O s) as [[] s0|msg s0|s0];
    cbn [final_state] in H0 |- *; try exact H0.
  unfold time_NewTicker. destruct (poll_period flags <=? 0).
  - cbn. exact H0.
  - unfold mbind, prog_bind. cbn [emit modify mret prog_ret].
    rewrite range_ticker_no_error_log. cbn.
    unfold error_logs in *. rewrite List.filter_app. cbn. rewrite app_nil_r. exact H0.
Qed.

End PollerRuns.

Lemma initLightningClient_no_panic {S} env h t m msg (s s' : S) :
  initLightningClient env h t m s ≠ Panicked msg s'.
Proof.
  unfold initLightningClient.
  destruct (credentials_NewClientTLSFromFile _ _); [|discriminate].
  destruct (ioutil_ReadFile _ _); [|discriminate].
  destruct (macaroon_UnmarshalBinary _ _); [|discriminate].
  destruct (grpc_Dial _ _ _); [|discriminate].
  unfold mbind, prog_bind. cbn [Deadline context_Background].
  rewrite await_no_deadline.
  destruct (latency _); [destruct (reply _)|]; discriminate.
Qed.

Section StartupOutcomes.

Variable NetworkView : Type.
Variable NewNetworkView : string -> NetworkView.

Local Abbreviation MState := (MainState NetworkView).
Local Abbreviation run_main := (main NetworkView NewNetworkView).

Ltac startup_reduce :=
  cbv beta iota zeta delta
    [main configure mbind prog_bind mret prog_ret modify panic go log_Infof
     log_SetLevel seed_NewNetworkView at_state heap goroutines logLevel mlog
     btc_enabled ltc_enabled test_enabled pkt_enabled btc_init ltc_init test_init
     set_debug enabled_chains final_state no_chain_panic
     listenAddrUDP listenAddrTCP bitcoinNodeHost litecoinNodeHost testNodeHost
     pktNodeHost bitcoinTLSPath litecoinTLSPath testTLSPath bitcoinMacPath
     litecoinMacPath testMacPath rootDomain authoritativeIP pollInterval debug
     numResults];
  rewrite ?size_insert_nonzero, ?size_empty_zero.

Ltac startup_step :=
  match goal with
  | |- context [initLightningClient ?env ?h ?t ?m ?st] =>
      lazymatch st with
      | tt => fail
      | _ => rewrite (initLightningClient_at_state env h t m st);
             destruct (initLightningClient env h t m tt)
               as [[?lnd|?e] []|?msg []|[]] eqn:?Init;
             [ | |exfalso; eapply initLightningClient_no_panic; eassumption| ]
      end
  | |- context [if ?b then _ else _] => destruct b eqn:?Gate
  end; startup_reduce.

Ltac startup_cases flags := destruct flags; startup_reduce; repeat startup_step.

(** X12.  [main] reaches [Serve] exactly when at least one chain is
    configured and the client of every configured lnd chain is
    initialised. *)
Theorem X12_main_serves_iff env flags (s : MState) :
  (∃ srv s', run_main env flags s = Done srv s') ↔
  (btc_enabled flags = true → succeeded (btc_init env flags))
  ∧ (ltc_enabled flags = true → succeeded (ltc_init env flags))
  ∧ (test_enabled flags = true → succeeded (test_init env flags))
  ∧ btc_enabled flags || ltc_enabled flags || test_enabled flags || pkt_enabled flags = true.
Proof.
  split.
  - intros (srv & s' & H). exact (main_serves_only_after_init _ _ env flags s srv s' H).
  - unfold succeeded.
    startup_cases flags; intros (Hb & Hl & Ht & Hany); try discriminate Hany; eauto;
      try (destruct (Hb eq_refl); discriminate);
      try (destruct (Hl eq_refl); discriminate);
      try (destruct (Ht eq_refl); discriminate).
Qed.

(** X13.  A panic of [main] has one of four causes, each with its
    message: no chain configured, or the client of the bitcoin, the
    litecoin or the testnet chain returning an error. *)
Theorem X13_main_panic_reasons env flags (s : MState) msg s' :
  run_main env flags s = Panicked msg s' →
  (btc_enabled flags = false ∧ ltc_enabled flags = false ∧ test_enabled flags = false
   ∧ pkt_enabled flags = false ∧ msg = no_chain_panic)
  ∨ (∃ e, btc_enabled flags = true ∧ btc_init env flags = Done (Error e) tt
          ∧ msg = ("unable to connect to btc lnd: " +:+ e)%string)
  ∨ (∃ e, ltc_enabled flags = true ∧ ltc_init env flags = Done (Error e) tt
          ∧ msg = ("unable to connect to ltc lnd: " +:+ e)%string)
  ∨ (∃ e, test_enabled flags = true ∧ test_init env flags = Done (Error e) tt
          ∧ msg = ("unable to connect to test lnd: " +:+ e)%string).
Proof.
  startup_cases flags; intros H; simplify_eq;
    first [ left; repeat split; reflexivity
          | right; left; eexists; repeat split; reflexivity
          | right; right; left; eexists; repeat split; reflexivity
          | right; right; right; eexists; repeat split; reflexivity ].
Qed.

(** X14.  [main] can only hang inside [initLightningClient]: if it
    blocks, the [GetInfo] probe of a configured lnd chain is never
    answered. *)
Theorem X14_main_blocked_reasons env flags (s : MState) s' :
  run_main env flags s = Blocked s' →
  (btc_enabled flags = true ∧ btc_init env flags = Blocked tt)
  ∨ (ltc_enabled flags = true ∧ ltc_init env flags = Blocked tt)
  ∨ (test_enabled flags = true ∧ test_init env flags = Blocked tt).
Proof.
  startup_cases flags; intros H; simplify_eq;
    first [ left; split; reflexivity
          | right; left; split; reflexivity
          | right; right; split; reflexivity ].
Qed.

(** X15.  The DNS server is built from the flags as given: the two
    listen addresses and the root domain unchanged, and the root IP as
    [net.ParseIP] reads the root-ip flag. *)
Theorem X15_server_built_from_flags env flags (s : MState) srv s' :
  run_main env flags s = Done srv s' →
  srv = NewDnsServer (chainViews srv) (listenAddrUDP flags) (listenAddrTCP flags)
          (rootDomain flags) (net_ParseIP env (authoritativeIP flags)).
Proof.
  startup_cases flags; intros H; simplify_eq; reflexivity.
Qed.

(** X16.  However [main] ends, it has started the debug HTTP
    listener first and after it one poller for each view it has
    allocated, in the same order: the i-th of these goroutines feeds
    the i-th new view and no other view; earlier views and goroutines
    are kept. *)
Theorem X16_every_view_has_its_poller env flags (s : MState) :
  ∃ views pollers,
    heap _ (final_state (run_main env flags s)) = heap _ s ++ views
    ∧ goroutines _ (final_state (run_main env flags s))
      = goroutines _ s ++ GoDebugHTTP :: pollers
    ∧ length pollers = length views
    ∧ Forall2 (λ g p, ∀ q, feeds g q = bool_decide (p = q))
        pollers (seq (length (heap _ s)) (length views)).
Proof.
  destruct s as [hp gs lvl lg].
  startup_cases flags; rewrite <- ?app_assoc; cbn [app];
    eexists _, _; (split; [try reflexivity; symmetry; apply app_nil_r|]);
    (split; [reflexivity|]); (split; [reflexivity|]);
    cbn [length seq]; rewrite ?length_app; cbn [length]; rewrite ?Nat.add_1_r;
    repeat constructor; intros q; cbn [feeds]; apply bool_decide_ext; lia.
Qed.

(** X17.  When [main] reaches [Serve], the views it has allocated
    are those of the configured chains, in the order bitcoin, litecoin,
    testnet, pkt, and the server's map has one entry for each. *)
Theorem X17_views_in_chain_order env flags (s : MState) srv s' :
  run_main env flags s = Done srv s' →
  heap _ s' = heap _ s ++ (NewNetworkView <$> enabled_chains flags)
  ∧ size (chainViews srv) = length (enabled_chains flags).
Proof.
  destruct s as [hp gs lvl lg].
  startup_cases flags; intros H; simplify_eq; cbn [heap chainViews NewDnsServer];
    rewrite <- ?app_assoc; (split; [reflexivity|]); vm_compute; reflexivity.
Qed.

(** X18.  The debug flag only changes logging: a start-up that
    reaches [Serve] does so for either value of the flag, with the
    same server, the same views and the same goroutines. *)
Theorem X18_debug_flag_only_affects_logging env flags b (s : MState) srv s' :
  run_main env flags s = Done srv s' →
  ∃ s'', run_main env (set_debug b flags) s = Done srv s''
    ∧ heap _ s'' = heap _ s' ∧ goroutines _ s'' = goroutines _ s'.
Proof.
  destruct s as [hp gs lvl lg].
  startup_cases flags; intros H; simplify_eq;
    eexists; repeat split; reflexivity.
Qed.

End StartupOutcomes.

(** ** Further runs on explicit inputs *)

Lemma X3_probe_refused :
  ∃ conn l, dialed env_down lnd_host "~/tls.cert" "~/admin.macaroon" conn
    ∧ latency (lnd_GetInfo env_down conn) = Some l
    ∧ reply (lnd_GetInfo env_down conn) = Error "connection refused"%string.
Proof.
  destruct (X3_initLightningClient_error_causes env_down lnd_host "~/tls.cert" "~/admin.macaroon"
              "connection refused"%string tt tt eq_refl)
    as [_ [(e0 & H & _)|[(c & _ & H)|[(c & b & _ & _ & H)|[(c & b & mc & e0 & _ & _ & _ & H & _)|H]]]]];
    try (vm_compute in H; discriminate H).
  exact H.
Defined.

Lemma X7_default_interval_exact :
  poll_period default_flags = pollInterval default_flags * time_Second.
Proof.
  apply (proj2 (X7_poll_period_exact_iff_in_range default_flags ltac:(cbn; lia))).
  vm_compute. discriminate.
Defined.

Lemma X8_view_after_three_polls :
  ∃ s', run_poller Registry Registry_AddNode env_up default_flags (LndSource sample_lnd) 2
          empty_poller = Done tt s'
    ∧ nview _ s' = view_after Registry Registry_AddNode (λ _, Ok sample_graph) 3
                     (nview _ empty_poller).
Proof.
  apply (X8_view_after_polls Registry Registry_AddNode env_up default_flags
           (LndSource sample_lnd) (λ _, Ok sample_graph) 2 empty_poller).
  - cbn. unfold max_poll_seconds. lia.
  - intros k. reflexivity.
Defined.

Lemma X9_zero_interval_panics :
  ∃ s0, scrapeGraph Registry Registry_AddNode env_up (PktSource pkt_url) 0 empty_poller
          = Done tt s0
    ∧ nview _ s0 = ingest Registry Registry_AddNode (Ok sample_graph) (nview _ empty_poller)
    ∧ ∀ n, run_poller Registry Registry_AddNode env_up flags_zero_interval
             (PktSource pkt_url) n empty_poller = Panicked ticker_panic s0.
Proof.
  apply (X9_nonpositive_interval_panics_after_first_poll Registry Registry_AddNode env_up flags_zero_interval
           (PktSource pkt_url) (Ok sample_graph) empty_poller).
  - cbn. unfold max_poll_seconds. lia.
  - reflexivity.
Defined.

Lemma X10_addressless_graph_polled :
  ∃ s', scrapeGraph Registry Registry_AddNode env_addressless (LndSource sample_lnd) 0
          empty_poller = Done tt s'
    ∧ nview _ s' = nview _ empty_poller
    ∧ addnode_calls (trace _ s') = addnode_calls (trace _ empty_poller).
Proof.
  apply (X10_addressless_graph_leaves_view Registry Registry_AddNode env_addressless
           (LndSource sample_lnd) 0%nat addressless_graph empty_poller).
  - intros node [<-|[<-|[]]]; reflexivity.
  - reflexivity.
Defined.

Lemma X13_bitcoin_refused :
  ∃ e, btc_init env_down flags_btc_pkt = Done (Error e) tt.
Proof.
  destruct (main Registry Registry_New env_down flags_btc_pkt (initial_state Registry))
    as [srv s'|msg s'|s'] eqn:E; [vm_compute in E; discriminate E| |vm_compute in E; discriminate E].
  destruct (X13_main_panic_reasons Registry Registry_New env_down flags_btc_pkt
              (initial_state Registry) msg s' E)
    as [(H & _)|[(e & _ & H & _)|[(e & H & _)|(e & H & _)]]];
    try (vm_compute in H; discriminate H).
  exists e. exact H.
Defined.

Lemma X14_bitcoin_probe_hangs :
  btc_init env_hung flags_btc_pkt = Blocked tt.
Proof.
  destruct (main Registry Registry_New env_hung flags_btc_pkt (initial_state Registry))
    as [srv s'|msg s'|s'] eqn:E; [vm_compute in E; discriminate E..|].
  destruct (X14_main_blocked_reasons Registry Registry_New env_hung flags_btc_pkt
              (initial_state Registry) s' E)
    as [(_ & H)|[(H & _)|(H & _)]];
    try (vm_compute in H; discriminate H).
  exact H.
Defined.

Lemma X15_default_listen_addresses :
  ∃ srv s', main Registry Registry_New env_up flags_pkt_only (initial_state Registry)
            = Done srv s'
    ∧ srvListenUDP srv = "0.0.0.0:53"%string
    ∧ srvRootIP srv = Some [127; 0; 0; 1].
Proof.
  destruct (main Registry Registry_New env_up flags_pkt_only (initial_state Registry))
    as [srv s'|msg s'|s'] eqn:E; [|vm_compute in E; discriminate E..].
  pose proof (X15_server_built_from_flags Registry Registry_New env_up flags_pkt_only
                (initial_state Registry) srv s' E) as H.
  exists srv, s'. split; [reflexivity|]. rewrite H. split; reflexivity.
Defined.

Lemma X17_bitcoin_then_pkt :
  ∃ srv s', main Registry Registry_New env_up flags_btc_pkt (initial_state Registry)
            = Done srv s'
    ∧ heap _ s' = [Registry_New "bitcoin"; Registry_New "pkt"]
    ∧ size (chainViews srv) = 2%nat.
Proof.
  destruct (main Registry Registry_New env_up flags_btc_pkt (initial_state Registry))
    as [srv s'|msg s'|s'] eqn:E; [|vm_compute in E; discriminate E..].
  destruct (X17_views_in_chain_order Registry Registry_New env_up flags_btc_pkt
              (initial_state Registry) srv s' E) as (H1 & H2).
  exists srv, s'. split; [reflexivity|]. split; assumption.
Defined.

Lemma X18_debug_on :
  ∃ srv s' s'',
    main Registry Registry_New env_up flags_btc_pkt (initial_state Registry) = Done srv s'
    ∧ main Registry Registry_New env_up (set_debug true flags_btc_pkt)
        (initial_state Registry) = Done srv s''
    ∧ goroutines _ s'' = goroutines _ s'.
Proof.
  destruct (main Registry Registry_New env_up flags_btc_pkt (initial_state Registry))
    as [srv s'|msg s'|s'] eqn:E; [|vm_compute in E; discriminate E..].
  destruct (X18_debug_flag_only_affects_logging Registry Registry_New env_up flags_btc_pkt
              true (initial_state Registry) srv s' E) as (s'' & H1 & _ & H3).
  exists srv, s', s''. split; [reflexivity|]. split; assumption.
Defined.
